(** * Timbot reaction manager: a shallow embedding of
    [src/Features/ReactionManager.js] and the properties of its rule
    store, its message filter and its administrative handlers.

    Conventions of the embedding.
    - A JavaScript string is a [string]; its characters are the code units
      below 256 (Latin-1).  [toLowerCase] and [trim] are the runtime's on
      that alphabet; code units from 256 on, and the case rules that look
      at neighbouring characters, are outside the model.
    - A number is an integer ([Z]) within the safe range, up to
      [MAX_SAFE_INTEGER] in absolute value, where the runtime prints a
      number as its decimal digits; fractions and larger numbers are
      outside the model, and the properties that read a number of a
      request say so in a hypothesis.  [NaN] is the [None] of an
      [option Z].
    - The feature's [this._data] object is a finite map from property keys
      to rules.  An exception thrown by the runtime is the [None] of an
      [option], or the [Threw] of an outcome.
    - The regular-expression engine, the database and the chat client are
      collaborators: their answers are inputs of the modelled functions. *)

From Stdlib Require Import ZArith Ascii String List Bool Lia.
From stdpp Require Import base option list gmap strings pretty.

Local Open Scope Z_scope.

(* ===================================================================== *)
(** * The runtime's strings and values *)
(* ===================================================================== *)

Module Js.

(** JSON scalars, plus [undefined] for a property that is absent. *)
Inductive value : Type :=
| VUndefined
| VNull
| VBool (b : bool)
| VNum (z : Z)
| VStr (s : string).

(** ToBoolean. *)
Definition truthy (v : value) : bool :=
  match v with
  | VUndefined | VNull => false
  | VBool b => b
  | VNum z => negb (z =? 0)
  | VStr s => negb (String.eqb s "")
  end.

(** Truthiness of a number that is stored in a rule (0/1 columns). *)
Definition truthyZ (z : Z) : bool := negb (z =? 0).

(** Truthiness of a number that may be [null] or NaN ([None]). *)
Definition truthyN (n : option Z) : bool :=
  match n with
  | Some z => negb (z =? 0)
  | None => false
  end.

(** Truthiness of a nullable string: [null] and the empty string are falsy. *)
Definition truthyS (s : option string) : bool :=
  match s with
  | None => false
  | Some s => negb (String.eqb s "")
  end.

(** [s || null] on a nullable string. *)
Definition or_null (s : option string) : option string :=
  if truthyS s then s else None.

(** The capitals among the code units below 256: A to Z, and the
    Latin-1 capitals 192 to 222 but the multiplication sign 215. *)
Definition is_upper (c : ascii) : bool :=
  let n := N_of_ascii c in
  (((65 <=? n) && (n <=? 90)) ||
   ((192 <=? n) && (n <=? 222) && negb (n =? 215)))%N.

Definition lower_char (c : ascii) : ascii :=
  if is_upper c then ascii_of_N (N_of_ascii c + 32) else c.

(** String.prototype.toLowerCase, on the code units below 256. *)
Fixpoint toLowerCase (s : string) : string :=
  match s with
  | EmptyString => EmptyString
  | String c s' => String (lower_char c) (toLowerCase s')
  end.

(** String.prototype.replaceAll with a one-character search string. *)
Fixpoint replaceAll (pat : ascii) (rep : string) (s : string) : string :=
  match s with
  | EmptyString => EmptyString
  | String c s' =>
      if Ascii.eqb c pat then rep +:+ replaceAll pat rep s'
      else String c (replaceAll pat rep s')
  end.

(** White space and line terminators below 256: TAB, LF, VT, FF, CR, SP
    and the no-break space 160. *)
Definition is_space (c : ascii) : bool :=
  let n := N_of_ascii c in
  (((9 <=? n) && (n <=? 13)) || (n =? 32) || (n =? 160))%N.

Fixpoint trimStart (s : string) : string :=
  match s with
  | EmptyString => EmptyString
  | String c s' => if is_space c then trimStart s' else s
  end.

Fixpoint trimEnd (s : string) : string :=
  match s with
  | EmptyString => EmptyString
  | String c s' =>
      let t := trimEnd s' in
      if is_space c && String.eqb t "" then EmptyString else String c t
  end.

(** String.prototype.trim. *)
Definition trim (s : string) : string := trimEnd (trimStart s).

(** String.prototype.startsWith (position 0). *)
Fixpoint startsWith (s p : string) : bool :=
  match p, s with
  | EmptyString, _ => true
  | String _ _, EmptyString => false
  | String a p', String b s' => Ascii.eqb a b && startsWith s' p'
  end.

Fixpoint indexOf_from (s t : string) (i : Z) : Z :=
  if startsWith s t then i
  else match s with
       | EmptyString => -1
       | String _ s' => indexOf_from s' t (i + 1)
       end.

(** String.prototype.indexOf: the first position of [t] in [s], or -1. *)
Definition indexOf (s t : string) : Z := indexOf_from s t 0.

Fixpoint rev_string (s acc : string) : string :=
  match s with
  | EmptyString => acc
  | String c s' => rev_string s' (String c acc)
  end.

(** String.prototype.endsWith. *)
Definition endsWith (s p : string) : bool :=
  startsWith (rev_string s "") (rev_string p "").

(** String.prototype.substr(start, length): a negative length selects
    nothing. *)
Definition substr (start len : Z) (s : string) : string :=
  String.substring (Z.to_nat start) (Z.to_nat len) s.

(** String.prototype.split with a one-character separator. *)
Fixpoint split (sep : ascii) (s : string) : list string :=
  match s with
  | EmptyString => [EmptyString]
  | String c s' =>
      if Ascii.eqb c sep then EmptyString :: split sep s'
      else match split sep s' with
           | h :: t => String c h :: t
           | [] => [String c EmptyString]
           end
  end.

(** The value of a digit or letter as parseInt reads it. *)
Definition digit_val (c : ascii) : option Z :=
  let n := Z.of_N (N_of_ascii c) in
  if (48 <=? n) && (n <=? 57) then Some (n - 48)
  else if (97 <=? n) && (n <=? 122) then Some (n - 87)
  else if (65 <=? n) && (n <=? 90) then Some (n - 55)
  else None.

(** The longest prefix of digits of [radix]; [acc] is [None] until a digit
    was read. *)
Fixpoint digits (radix : Z) (s : string) (acc : option Z) : option Z :=
  match s with
  | EmptyString => acc
  | String c s' =>
      match digit_val c with
      | Some d =>
          if d <? radix then digits radix s' (Some (default 0 acc * radix + d))
          else acc
      | None => acc
      end
  end.

(** parseInt(string) with no radix argument: leading white space, a sign,
    a [0x] prefix, then digits; [None] is NaN.  The result is exact (the
    rounding of integers beyond 2^53 is not modelled). *)
Definition parseInt_string (s : string) : option Z :=
  let s := trimStart s in
  let '(sign, s) :=
    match s with
    | String "-" s' => (-1, s')
    | String "+" s' => (1, s')
    | _ => (1, s)
    end in
  let '(radix, s) :=
    match s with
    | String "0" (String "x" s') => (16, s')
    | String "0" (String "X" s') => (16, s')
    | _ => (10, s)
    end in
  Z.mul sign <$> digits radix s None.

(** Number.MAX_SAFE_INTEGER, 2^53 - 1. *)
Definition MAX_SAFE_INTEGER : Z := 9007199254740991.

(** parseInt(value): the argument is converted to a string first, so
    [true], [null] and [undefined] are NaN, and a number in the safe range,
    which prints as its decimal digits, reads back as itself.  Outside that
    range the runtime prints rounded digits or an exponent, which this
    definition does not follow: see [in_safe_range]. *)
Definition parseInt (v : value) : option Z :=
  match v with
  | VStr s => parseInt_string s
  | VNum z => Some z
  | VBool _ | VNull | VUndefined => None
  end.

(** The value is one whose parse this model has right: what [parseInt]
    reads from it is within the safe range. *)
Definition in_safe_range (v : value) : Prop :=
  forall i : Z, parseInt v = Some i -> Z.abs i <= MAX_SAFE_INTEGER.

(** [parseInt(v) || null]: NaN and 0 are falsy. *)
Definition parseInt_or_null (v : value) : option Z :=
  match parseInt v with
  | Some z => if z =? 0 then None else Some z
  | None => None
  end.

(** [parseInt(v) === 1 ? 1 : 0]. *)
Definition flag01 (v : value) : Z :=
  match parseInt v with
  | Some 1 => 1
  | _ => 0
  end.

End Js.

Import Js.

(* ===================================================================== *)
(** * The data model *)
(* ===================================================================== *)

(** A reaction rule, as a row of the [reactions] table and as an entry of
    [this._data]: nullable text columns and 0/1 integer columns. *)
Record reaction : Type := mkReaction {
  id : option Z;
  type : option string;
  trigger : option string;
  must_mention : Z;
  insensitive : Z;
  response : option string;
  emote : option string;
  do_mention : Z
}.

Definition TYPE_KEYWORD : string := "keyword".
Definition TYPE_TEXT : string := "text".
Definition TYPE_MESSAGE : string := "message".

Definition API_OP_REACTION_WRITE : string := "reaction_write".
Definition API_OP_REACTION_DELETE : string := "reaction_delete".
Definition API_OP_REACTIONS_FETCH : string := "reactions_fetch".

(** The property keys [this._data] is indexed with: the decimal string of
    an integer, ["NaN"] (a record id that did not parse) and ["null"] (a
    row with no id). *)
Inductive PropKey : Type :=
| KInt (z : Z)
| KNaN
| KNull.

#[global] Instance PropKey_eq_dec : EqDecision PropKey.
Proof. solve_decision. Defined.

Definition PropKey_encode (k : PropKey) : Z + bool :=
  match k with
  | KInt z => inl z
  | KNaN => inr true
  | KNull => inr false
  end.

Definition PropKey_decode (x : Z + bool) : PropKey :=
  match x with
  | inl z => KInt z
  | inr true => KNaN
  | inr false => KNull
  end.

Lemma PropKey_decode_encode (k : PropKey) : PropKey_decode (PropKey_encode k) = k.
Proof. destruct k; reflexivity. Qed.

#[global] Instance PropKey_countable : Countable PropKey :=
  inj_countable' PropKey_encode PropKey_decode PropKey_decode_encode.

(** The key of [this._data[n]] for a number [n] that may be NaN. *)
Definition key_of_number (n : option Z) : PropKey :=
  match n with
  | Some z => KInt z
  | None => KNaN
  end.

(** The key of [this._data[row.id]]. *)
Definition key_of_id (i : option Z) : PropKey :=
  match i with
  | Some z => KInt z
  | None => KNull
  end.

(** The rule store, [this._data]. *)
Abbreviation store := (gmap PropKey reaction).

(** Object.values(this._data).  The enumeration order of the runtime
    (integer keys ascending, then the others by insertion) is not part of
    the model: the list is the map's own enumeration. *)
Definition Object_values (_data : store) : list reaction :=
  (map_to_list _data).*2.

Inductive log_level : Type := LvlD | LvlW | LvlE.

(** A connection of the administrative transport. *)
Definition socket : Type := nat.

(** What a handler does to the outside world, in order. *)
Inductive effect : Type :=
| Log (lvl : log_level) (args : list value)
| React (target : string)
| ChannelSend (content : string)
| WsSend (ws : socket) (op : string) (reactions : list reaction).

(** A call either returns or throws. *)
Inductive outcome (A : Type) : Type :=
| Returned (a : A)
| Threw.
Arguments Returned {A} a.
Arguments Threw {A}.

(** The persistent store, as the answers it gives to the three calls
    the feature makes. *)
Record Database : Type := {
  (** Timbot.db.insertOrUpdate(table, row): [false], or the row's id. *)
  insertOrUpdate : string -> reaction -> value;
  (** Timbot.db.deleteIfExists(table, id): whether a row was removed. *)
  deleteIfExists : string -> Z -> bool;
  (** dbc.prepare(sql).all(): the rows, or [None] when it throws. *)
  prepare_all : string -> option (list reaction)
}.

(** An incoming chat message, with what the handler reads of it. *)
Record message : Type := {
  author_bot : bool;
  author_id : string;
  system : bool;
  cleanContent : string;
  channel_type : string;
  (** message.isMentioned(client.user) *)
  isMentioned : bool;
  (** whether message.channel.send throws *)
  channel_send_throws : bool
}.

(** The chat client: the custom emojis it knows, as (name, id). *)
Record client : Type := {
  emojis : list (string * string)
}.

(** The payload of a write request.  The text fields are strings or
    absent; the others are whatever the requester sent. *)
Record write_data : Type := {
  d_id : value;
  d_type : option string;
  d_trigger : option string;
  d_must_mention : value;
  d_insensitive : value;
  d_response : option string;
  d_emote : option string;
  d_do_mention : value
}.

(* ===================================================================== *)
(** * The administrative handlers and the rule store *)
(* ===================================================================== *)

(** The [upsertData] object of [_handleApiWriteReaction]. *)
Definition upsertData_of (data : write_data) : reaction :=
  {| id := parseInt_or_null (d_id data);
     type := or_null (d_type data);
     trigger := or_null (d_trigger data);
     must_mention := flag01 (d_must_mention data);
     insensitive := flag01 (d_insensitive data);
     response := or_null (d_response data);
     emote := or_null (Some (trim (default EmptyString (or_null (d_emote data)))));
     do_mention := flag01 (d_do_mention data) |}.

Definition set_id (i : option Z) (r : reaction) : reaction :=
  {| id := i; type := type r; trigger := trigger r;
     must_mention := must_mention r; insensitive := insensitive r;
     response := response r; emote := emote r; do_mention := do_mention r |}.

(** [result === false] *)
Definition is_false (v : value) : bool :=
  match v with
  | VBool false => true
  | _ => false
  end.

(** [_handleApiWriteReaction(ws, data)]: the new [this._data] and the
    returned value ([false], or [undefined] at the end of the body). *)
Definition _handleApiWriteReaction (db : Database) (data : write_data)
    (_data : store) : store * value :=
  let upsertData := upsertData_of data in
  let result := insertOrUpdate db "reactions" upsertData in
  if is_false result then (_data, VBool false)
  else
    let recordId := parseInt result in
    let upsertData :=
      if negb (truthyN (id upsertData)) && truthyN recordId
      then set_id recordId upsertData
      else upsertData in
    (<[key_of_number recordId := upsertData]> _data, VUndefined).

(** [_handleApiReactionsFetch(ws, data)] *)
Definition _handleApiReactionsFetch (ws : socket) (_data : store) : list effect :=
  let rows := Object_values _data in
  [WsSend ws API_OP_REACTIONS_FETCH rows].

(** [_handleApiReactionDelete(ws, data)], on the [id] of the payload. *)
Definition _handleApiReactionDelete (db : Database) (ws : socket)
    (data_id : value) (_data : store) : store * list effect :=
  match parseInt_or_null data_id with
  | Some i =>
      if 0 <? i then
        let _data' :=
          if deleteIfExists db "reactions" i then delete (KInt i) _data
          else _data in
        (_data', _handleApiReactionsFetch ws _data')
      else (_data, [])
  | None => (_data, [])
  end.

(** [reloadAll()]: the new [this._data], the returned value and the log
    line.  [prepare(...).all()] is the only call that can throw before
    [this._data] is reset; the rows it returns are row objects. *)
Definition reloadAll (db : Database) (_data : store) : store * value * list effect :=
  match prepare_all db "SELECT * FROM reactions;" with
  | Some allRows =>
      (foldl (fun d row => <[key_of_id (id row) := row]> d) (∅ : store) allRows,
       VBool true,
       [Log LvlD [VNum (Z.of_nat (length allRows))]])
  | None => (_data, VBool false, [Log LvlE []])
  end.

(* ===================================================================== *)
(** * The message filter *)
(* ===================================================================== *)

(** The six [replaceAll] calls that remove the "grammatical punctuation". *)
Definition strip_punctuation (chatNormal : string) : string :=
  let chatNormal := replaceAll "!" "" chatNormal in
  let chatNormal := replaceAll "?" "" chatNormal in
  let chatNormal := replaceAll "'" "" chatNormal in
  let chatNormal := replaceAll "034" "" chatNormal in
  let chatNormal := replaceAll "," "" chatNormal in
  let chatNormal := replaceAll "." "" chatNormal in
  chatNormal.

(** [chatNormal] when the switch is reached. *)
Definition chatNormal_of (reaction : reaction) (cleanText : string) : string :=
  if truthyZ (insensitive reaction)
  then strip_punctuation (toLowerCase cleanText)
  else cleanText.

(** [triggerNormal] when the switch is reached. *)
Definition triggerNormal_of (reaction : reaction) (trigger : string) : string :=
  if truthyZ (insensitive reaction) then toLowerCase trigger else trigger.

(** A [case] label of [switch (reaction.type)]: strict equality with a
    string constant. *)
Definition type_is (t : option string) (label : string) : bool :=
  match t with
  | Some s => String.eqb s label
  | None => false
  end.

(** Array.prototype.filter with a callback that may throw. *)
Fixpoint Array_filter {A : Type} (f : A -> option bool) (l : list A) : option (list A) :=
  match l with
  | [] => Some []
  | x :: l' =>
      match f x with
      | None => None
      | Some b =>
          match Array_filter f l' with
          | None => None
          | Some r => Some (if b then x :: r else r)
          end
      end
  end.

(** One emote token of [_deliverReaction]. *)
Definition deliver_emote (client : client) (emote : string) : list effect :=
  if startsWith emote ":" && endsWith emote ":" then
    let emoteVal := substr 1 (Z.of_nat (String.length emote) - 2) emote in
    match find (fun e => String.eqb (fst e) emoteVal) (emojis client) with
    | Some discordEmoji => [React (snd discordEmoji)]
    | None => [Log LvlW [VStr emote]]
    end
  else [React emote].

(** [_deliverReaction(client, message, reaction)].  A reaction that the
    platform rejects later is logged from a promise; that is not part of
    the synchronous run. *)
Definition _deliverReaction (client : client) (message : message)
    (reaction : reaction) : list effect :=
  (if truthyS (emote reaction)
   then flat_map (deliver_emote client) (split " " (default EmptyString (emote reaction)))
   else [])
  ++
  (if truthyS (response reaction) then
     let msgContent := default EmptyString (response reaction) in
     let isDirectMessage := String.eqb (channel_type message) "dm" in
     let shouldMention := negb isDirectMessage && truthyZ (do_mention reaction) in
     let msgContent :=
       if shouldMention then "<@" +:+ author_id message +:+ "> " +:+ msgContent
       else msgContent in
     Log LvlD [VStr msgContent; VStr (cleanContent message)]
     :: ChannelSend msgContent
     :: (if channel_send_throws message then [Log LvlW [VStr msgContent]] else [])
   else []).

Section Matcher.

(** [new RegExp(source, "gm")]: [None] when the constructor throws a
    SyntaxError, else the test "[text.match(re) !== null]". *)
Variable RegExp_gm : string -> option (string -> bool).

(** The callback of [Object.values(this._data).filter(...)]: whether the
    rule is kept, or [None] when the callback throws. *)
Definition matches (didMentionUs : bool) (cleanText : string)
    (reaction : reaction) : option bool :=
  if negb (truthyS (trigger reaction)) then Some false
  else if truthyZ (must_mention reaction) && negb didMentionUs then Some false
  else
    let chatNormal := chatNormal_of reaction cleanText in
    let triggerNormal :=
      triggerNormal_of reaction (default EmptyString (trigger reaction)) in
    if type_is (type reaction) TYPE_KEYWORD then
      match RegExp_gm ("\b" +:+ triggerNormal +:+ "\b") with
      | Some re => Some (re chatNormal)
      | None => None
      end
    else if type_is (type reaction) TYPE_MESSAGE then
      Some (String.eqb chatNormal triggerNormal)
    else
      Some (0 <=? indexOf chatNormal triggerNormal).

(** [matchingReactions] for a message that passed the two gates. *)
Definition matchingReactions (didMentionUs : bool) (cleanText : string)
    (_data : store) : option (list reaction) :=
  Array_filter (matches didMentionUs cleanText) (Object_values _data).

(** [_handleDiscordMessage(client, message)]: the effects of the run.  A
    throw can only come from the callback of [filter], before anything
    was delivered. *)
Definition _handleDiscordMessage (client : client) (message : message)
    (_data : store) : outcome (list effect) :=
  if author_bot message || system message then Returned []
  else
    let cleanText := trim (cleanContent message) in
    if (String.length cleanText =? 0)%nat then Returned []
    else
      let isDirectMessage := String.eqb (channel_type message) "dm" in
      let didMentionUs := isDirectMessage || isMentioned message in
      match matchingReactions didMentionUs cleanText _data with
      | Some matching => Returned (flat_map (_deliverReaction client message) matching)
      | None => Threw
      end.

End Matcher.

(* ===================================================================== *)
(** * Notions the properties are stated with *)
(* ===================================================================== *)

(** The punctuation set the filter removes: exclamation and question
    marks, the apostrophe, the double quote (code 34), comma and full stop. *)
Definition is_punct (c : ascii) : bool :=
  Ascii.eqb c "!" || Ascii.eqb c "?" || Ascii.eqb c "'" ||
  Ascii.eqb c "034" || Ascii.eqb c "," || Ascii.eqb c ".".

(** A string that holds none of the six characters. *)
Fixpoint punct_free (s : string) : bool :=
  match s with
  | EmptyString => true
  | String c s' => negb (is_punct c) && punct_free s'
  end.

(** [t] occurs in [s] as a substring. *)
Definition occurs_in (t s : string) : Prop :=
  exists pre post : string, s = pre +:+ t +:+ post.

(** The normalization in the words of the specification: with the
    [insensitive] flag, lowercase and remove the punctuation set; the
    same function for the chat text and for the trigger. *)
Definition normalize_spec (insensitive : Z) (s : string) : string :=
  if truthyZ insensitive then strip_punctuation (toLowerCase s) else s.

(** A rule in the form the write handler stores: an id that is absent or
    non-zero, flags that are 0 or 1, text fields that are absent or
    non-empty. *)
Definition normalized (r : reaction) : Prop :=
  id r <> Some 0 /\
  type r <> Some "" /\ trigger r <> Some "" /\
  (must_mention r = 0 \/ must_mention r = 1) /\
  (insensitive r = 0 \/ insensitive r = 1) /\
  response r <> Some "" /\ emote r <> Some "" /\
  (do_mention r = 0 \/ do_mention r = 1).

(** What lines 66-91 make of a write request, field by field, in terms
    of the payload [data] and of the answer [result] of the persistent
    store: the rule [stored] carries the id of the request when that
    parses to a non-zero number and else the record id when that does;
    a text field is the payload's when that is a non-empty string and
    absent otherwise; a flag is 1 when the payload's parses to 1 and 0
    otherwise; the emote is the payload's, trimmed, when that leaves
    something. *)
Definition written_as (data : write_data) (result : value) (stored : reaction) : Prop :=
  let nonzero (n : option Z) :=
    match n with
    | Some z => if z =? 0 then None else Some z
    | None => None
    end in
  let text (o : option string) :=
    match o with
    | Some t => if String.eqb t "" then None else Some t
    | None => None
    end in
  let flag (v : value) :=
    match parseInt v with
    | Some 1 => 1
    | _ => 0
    end in
  id stored = match nonzero (parseInt (d_id data)) with
              | Some i => Some i
              | None => nonzero (parseInt result)
              end /\
  type stored = text (d_type data) /\
  trigger stored = text (d_trigger data) /\
  must_mention stored = flag (d_must_mention data) /\
  insensitive stored = flag (d_insensitive data) /\
  response stored = text (d_response data) /\
  emote stored = match d_emote data with
                 | Some raw => text (Some (trim raw))
                 | None => None
                 end /\
  do_mention stored = flag (d_do_mention data).

(** The numbers of a write request are within the range of the model. *)
Definition payload_in_safe_range (data : write_data) : Prop :=
  in_safe_range (d_id data) /\ in_safe_range (d_must_mention data) /\
  in_safe_range (d_insensitive data) /\ in_safe_range (d_do_mention data).

(** The mention gate of a rule lets the message through. *)
Definition mention_ok (didMentionUs : bool) (r : reaction) : Prop :=
  must_mention r = 0 \/ didMentionUs = true.

Definition upper_char (c : ascii) : ascii :=
  let n := N_of_ascii c in
  if ((97 <=? n) && (n <=? 122))%N then ascii_of_N (n - 32) else c.

(** A case change: every ASCII letter to its capital. *)
Fixpoint toUpperCase (s : string) : string :=
  match s with
  | EmptyString => EmptyString
  | String c s' => String (upper_char c) (toUpperCase s')
  end.

(** The rule with another trigger. *)
Definition with_trigger (t : option string) (r : reaction) : reaction :=
  {| id := id r; type := type r; trigger := t;
     must_mention := must_mention r; insensitive := insensitive r;
     response := response r; emote := emote r; do_mention := do_mention r |}.

(** A rule that is not selected for a message: the callback answers
    [false] for it, and it is not in [matchingReactions] whatever the
    store holds. *)
Definition never_selected (RegExp_gm : string -> option (string -> bool))
    (r : reaction) (dm : bool) (cleanText : string) : Prop :=
  matches RegExp_gm dm cleanText r = Some false /\
  forall (_data : store) (matching : list reaction),
    matchingReactions RegExp_gm dm cleanText _data = Some matching -> r ∉ matching.

(* ===================================================================== *)
(** * Sample data for the examples *)
(* ===================================================================== *)

(** An engine that rejects every pattern. *)
Definition RegExp_rejecting : string -> option (string -> bool) := fun _ => None.

Definition rule_hi : reaction :=
  {| id := Some 1; type := Some "message"; trigger := Some "hi";
     must_mention := 0; insensitive := 1;
     response := Some "hello"; emote := None; do_mention := 0 |}.

(** [rule_hi] with an exclamation mark in its trigger. *)
Definition rule_hi_bang : reaction := with_trigger (Some "hi!") rule_hi.

Definition rule_mention : reaction :=
  {| id := Some 2; type := Some "message"; trigger := Some "hi";
     must_mention := 1; insensitive := 0;
     response := Some "you called"; emote := None; do_mention := 1 |}.

Definition rule_cat : reaction :=
  {| id := Some 3; type := None; trigger := Some "cat";
     must_mention := 0; insensitive := 0;
     response := None; emote := Some ":tada: x"; do_mention := 0 |}.

Definition rule_cat_mention : reaction :=
  {| id := Some 4; type := None; trigger := Some "cat";
     must_mention := 1; insensitive := 0;
     response := None; emote := Some "x"; do_mention := 0 |}.

Definition rule_cat_dot : reaction :=
  {| id := Some 5; type := Some "other"; trigger := Some "cat.";
     must_mention := 0; insensitive := 1;
     response := None; emote := Some "x"; do_mention := 0 |}.

Definition rule_blank : reaction :=
  {| id := Some 6; type := Some "keyword"; trigger := None;
     must_mention := 0; insensitive := 1;
     response := Some "never"; emote := None; do_mention := 0 |}.

Definition rule_keyword : reaction :=
  {| id := Some 7; type := Some "keyword"; trigger := Some "cat";
     must_mention := 0; insensitive := 1;
     response := Some "meow"; emote := None; do_mention := 0 |}.

(** A row with no id. *)
Definition row_without_id : reaction :=
  {| id := None; type := Some "text"; trigger := Some "dog";
     must_mention := 0; insensitive := 0;
     response := Some "woof"; emote := None; do_mention := 0 |}.

Definition sample_store : store :=
  <[KInt 3 := rule_cat]> (<[KInt 2 := rule_mention]> (<[KInt 1 := rule_hi]> ∅)).

Definition sample_client : client := {| emojis := [("tada", "99")] |}.

Definition message_of (bot sys : bool) (text : string) : message :=
  {| author_bot := bot; author_id := "42"; system := sys;
     cleanContent := text; channel_type := "text";
     isMentioned := false; channel_send_throws := false |}.

(** A store that answers every call. *)
Definition db_up (rows : list reaction) : Database :=
  {| insertOrUpdate := fun _ _ => VNum 8;
     deleteIfExists := fun _ _ => true;
     prepare_all := fun _ => Some rows |}.

(** A store that fails every call. *)
Definition db_down : Database :=
  {| insertOrUpdate := fun _ _ => VBool false;
     deleteIfExists := fun _ _ => false;
     prepare_all := fun _ => None |}.

Definition sample_write : write_data :=
  {| d_id := VUndefined; d_type := Some "text"; d_trigger := Some "dog";
     d_must_mention := VStr "1"; d_insensitive := VBool true;
     d_response := Some ""; d_emote := Some " :tada: "; d_do_mention := VNum 1 |}.

(** A concrete value is within the safe range. *)
Ltac safe_value :=
  let i := fresh "i" in
  let H := fresh "H" in
  intros i H; vm_compute in H;
  first [ discriminate H | injection H as <-; vm_compute; discriminate ].

Ltac by_char c :=
  destruct c as [[] [] [] [] [] [] [] []]; vm_compute; try reflexivity; try discriminate.

(* ===================================================================== *)
(** * The feature's life cycle *)
(* ===================================================================== *)

(** The four bound methods the feature hands to the host. *)
Inductive handler : Type :=
| H_WriteReaction
| H_ReactionDelete
| H_ReactionsFetch
| H_DiscordMessage.

(** A call on the host's route table or filter list. *)
Inductive host_call : Type :=
| RegisterApi (op : string) (h : handler)
| UnregisterApi (op : string) (h : handler)
| RegisterFilter (h : handler)
| UnregisterFilter (h : handler).

(** The fields of a [ReactionManager]; [None] is [null] or not yet set. *)
Record feature : Type := {
  this_data : option store;
  this_dbc : option Database
}.

(** [constructor()]: [this._data = {}]; [this.dbc] is set by [enable]. *)
Definition constructor : feature :=
  {| this_data := Some ∅; this_dbc := None |}.

(** [enable()]: the connection is taken from the host, [reloadAll()] runs
    and its returned value is dropped, then the three routes and the
    filter are registered.  A failed load leaves [this._data] as it is. *)
Definition enable (connection : Database) (this : feature)
    : feature * list effect * list host_call :=
  let '(loaded, returned, log) :=
    reloadAll connection (default (∅ : store) (this_data this)) in
  ({| this_data := if is_false returned then this_data this else Some loaded;
      this_dbc := Some connection |},
   log,
   [RegisterApi API_OP_REACTION_WRITE H_WriteReaction;
    RegisterApi API_OP_REACTION_DELETE H_ReactionDelete;
    RegisterApi API_OP_REACTIONS_FETCH H_ReactionsFetch;
    RegisterFilter H_DiscordMessage]).

(** [disable()] *)
Definition disable (this : feature) : feature * list host_call :=
  ({| this_data := None; this_dbc := None |},
   [UnregisterApi API_OP_REACTION_WRITE H_WriteReaction;
    UnregisterApi API_OP_REACTION_DELETE H_ReactionDelete;
    UnregisterApi API_OP_REACTIONS_FETCH H_ReactionsFetch;
    UnregisterFilter H_DiscordMessage]).

(** The call that takes a registration back. *)
Definition undo_call (c : host_call) : host_call :=
  match c with
  | RegisterApi op h => UnregisterApi op h
  | RegisterFilter h => UnregisterFilter h
  | UnregisterApi op h => RegisterApi op h
  | UnregisterFilter h => RegisterFilter h
  end.

(* ===================================================================== *)
(** * The live-stream card *)
(* ===================================================================== *)

Module LiveEmbed.

(** The rest of a string after its first [n] characters. *)
Fixpoint drop_chars (n : nat) (s : string) : string :=
  match n, s with
  | O, _ => s
  | S _, EmptyString => EmptyString
  | S n', String _ s' => drop_chars n' s'
  end.

(** String.prototype.replace with a string pattern and a replacement
    that holds no dollar sign: the first occurrence only. *)
Fixpoint replace (pat rep s : string) : string :=
  if startsWith s pat then rep +:+ drop_chars (String.length pat) s
  else match s with
       | EmptyString => EmptyString
       | String c s' => String c (replace pat rep s')
       end.

(** [streamData.game] *)
Record game_data : Type := {
  name : string;
  box_art_url : option string
}.

(** What [createForStream] reads of [streamData]; [started_at] is read
    only through the uptime text. *)
Record streamData : Type := {
  type : option string;
  login : option string;
  user_name : string;
  profile_image_url : string;
  game : option game_data;
  title : string;
  viewer_count : Z;
  thumbnail_url : string
}.

(** The calls made on the new [Discord.MessageEmbed], in order. *)
Inductive embed_call : Type :=
| setColor (color : string)
| setURL (url : string)
| setThumbnail (url : string)
| setTitle (text : string)
| setDescription (text : string)
| addField (field value : string) (inline : bool)
| setImage (url : string).

(** [LiveEmbed.createForStream(streamData)].  Inputs from outside the
    function: [config.twitch_use_boxart]; the text of
    [(Date.now() / 1000).toFixed(0)]; the text [humanizeDuration] gives
    for the time since [started_at]. *)
Definition createForStream (twitch_use_boxart : bool) (thumbnailBuster uptime : string)
    (streamData : streamData) : list embed_call :=
  let isLive := type_is (type streamData) "live" in
  let allowBoxArt := twitch_use_boxart in
  let thumbUrl := profile_image_url streamData in
  let thumbUrl :=
    match game streamData with
    | Some g =>
        if allowBoxArt && truthyS (box_art_url g) then
          let thumbUrl := default EmptyString (box_art_url g) in
          let thumbUrl := replace "{width}" "288" thumbUrl in
          replace "{height}" "384" thumbUrl
        else thumbUrl
    | None => thumbUrl
    end in
  [setColor (if isLive then "#9146ff" else "GREY");
   setURL ("https://twitch.tv/" +:+
           toLowerCase (if truthyS (login streamData)
                        then default EmptyString (login streamData)
                        else user_name streamData));
   setThumbnail thumbUrl]
  ++ (if isLive then
        [setTitle (":red_circle: **" +:+ user_name streamData +:+ " est en live sur Twitch !**");
         addField "Titre" (title streamData) false]
      else
        [setTitle (":white_circle: " +:+ user_name streamData +:+ " "
                   +:+ String "233" "tait en live sur Twitch.");
         setDescription ("Le stream est termin" +:+ String "233" ".");
         addField "Titre" (title streamData) true])
  ++ match game streamData with
     | Some g => [addField "Jeu" (name g) false]
     | None => []
     end
  ++ (if isLive then
        let imageUrl := thumbnail_url streamData in
        let imageUrl := replace "{width}" "1280" imageUrl in
        let imageUrl := replace "{height}" "720" imageUrl in
        let imageUrl := imageUrl +:+ "?t=" +:+ thumbnailBuster in
        [addField "Statut"
           ("En live avec " +:+ pretty (viewer_count streamData) +:+ " viewers") true;
         setImage imageUrl;
         addField "Depuis" uptime true]
      else []).

(** A string with no opening brace. *)
Fixpoint no_brace (s : string) : bool :=
  match s with
  | EmptyString => true
  | String c s' => negb (Ascii.eqb c "{") && no_brace s'
  end.

Definition is_setImage (c : embed_call) : bool :=
  match c with
  | setImage _ => true
  | _ => false
  end.

Definition is_setThumbnail (c : embed_call) : bool :=
  match c with
  | setThumbnail _ => true
  | _ => false
  end.

(** A stream as the platform reports it while live. *)
Definition sample_live : streamData :=
  {| type := Some "live"; login := Some "SomeOne"; user_name := "SomeOne";
     profile_image_url := "https://cdn/profile.png";
     game := Some {| name := "Chess";
                     box_art_url := Some "https://cdn/chess-{width}x{height}.jpg" |};
     title := "Blitz"; viewer_count := 12;
     thumbnail_url := "https://cdn/live-{width}x{height}.jpg" |}.

End LiveEmbed.

(* ===================================================================== *)
(** * Further notions *)
(* ===================================================================== *)

Definition is_ChannelSend (e : effect) : bool :=
  match e with
  | ChannelSend _ => true
  | _ => false
  end.

(** A reaction or the warning that stands for one. *)
Definition is_emote_effect (e : effect) : bool :=
  match e with
  | React _ => true
  | Log LvlW _ => true
  | _ => false
  end.

(** The number of occurrences of a character. *)
Fixpoint count_char (c : ascii) (s : string) : nat :=
  match s with
  | EmptyString => O
  | String x s' => (if Ascii.eqb x c then 1 else 0)%nat + count_char c s'
  end.

(** The rule with another [must_mention] flag. *)
Definition with_must_mention (z : Z) (r : reaction) : reaction :=
  {| id := id r; type := type r; trigger := trigger r;
     must_mention := z; insensitive := insensitive r;
     response := response r; emote := emote r; do_mention := do_mention r |}.


(** A rule as it reads in the JSON of a fetch broadcast, taken as the
    payload of a write request. *)
Definition payload_of_row (r : reaction) : write_data :=
  {| d_id := match id r with Some z => VNum z | None => VNull end;
     d_type := type r;
     d_trigger := trigger r;
     d_must_mention := VNum (must_mention r);
     d_insensitive := VNum (insensitive r);
     d_response := response r;
     d_emote := emote r;
     d_do_mention := VNum (do_mention r) |}.

(** The message as a direct message. *)
Definition direct (m : message) : message :=
  {| author_bot := author_bot m; author_id := author_id m; system := system m;
     cleanContent := cleanContent m; channel_type := "dm";
     isMentioned := isMentioned m; channel_send_throws := channel_send_throws m |}.


(* ===================================================================== *)
(** * Lemmas on strings *)
(* ===================================================================== *)

Lemma append_nil_l (s : string) : "" +:+ s = s.
Proof. reflexivity. Qed.

Lemma append_cons (c : ascii) (a b : string) : String c a +:+ b = String c (a +:+ b).
Proof. reflexivity. Qed.

Lemma append_nil_r (s : string) : s +:+ "" = s.
Proof.
  induction s as [|c s IH]; [reflexivity|]. now rewrite append_cons, IH.
Qed.

Lemma append_assoc (a b c : string) : (a +:+ b) +:+ c = a +:+ (b +:+ c).
Proof.
  induction a as [|x a IH]; [reflexivity|]. now rewrite !append_cons, IH.
Qed.

Lemma strip_punctuation_cons (c : ascii) (s : string) :
  strip_punctuation (String c s) =
  if is_punct c then strip_punctuation s else String c (strip_punctuation s).
Proof.
  unfold strip_punctuation, is_punct. cbn [replaceAll].
  destruct (Ascii.eqb c "!"); rewrite ?append_nil_l; cbn [orb replaceAll]; [reflexivity|].
  destruct (Ascii.eqb c "?"); rewrite ?append_nil_l; cbn [orb replaceAll]; [reflexivity|].
  destruct (Ascii.eqb c "'"); rewrite ?append_nil_l; cbn [orb replaceAll]; [reflexivity|].
  destruct (Ascii.eqb c "034"); rewrite ?append_nil_l; cbn [orb replaceAll]; [reflexivity|].
  destruct (Ascii.eqb c ","); rewrite ?append_nil_l; cbn [orb replaceAll]; [reflexivity|].
  destruct (Ascii.eqb c "."); rewrite ?append_nil_l; cbn [orb replaceAll]; reflexivity.
Qed.

Lemma strip_punctuation_app (a b : string) :
  strip_punctuation (a +:+ b) = strip_punctuation a +:+ strip_punctuation b.
Proof.
  induction a as [|c a IH]; [reflexivity|].
  rewrite append_cons, !strip_punctuation_cons, IH.
  destruct (is_punct c); reflexivity.
Qed.

Lemma strip_punctuation_free (s : string) :
  punct_free s = true -> strip_punctuation s = s.
Proof.
  induction s as [|c s IH]; [reflexivity|]. cbn [punct_free].
  intros [Hc Hs]%andb_prop. rewrite strip_punctuation_cons.
  apply negb_true_iff in Hc. rewrite Hc, IH by assumption. reflexivity.
Qed.

Lemma toLowerCase_app (a b : string) :
  toLowerCase (a +:+ b) = toLowerCase a +:+ toLowerCase b.
Proof.
  induction a as [|c a IH]; [reflexivity|].
  rewrite append_cons. cbn [toLowerCase]. now rewrite append_cons, IH.
Qed.

Lemma is_punct_lower_char (c : ascii) : is_punct (lower_char c) = is_punct c.
Proof. by_char c. Qed.

Lemma lower_char_punct (c : ascii) : is_punct c = true -> lower_char c = c.
Proof. by_char c. Qed.

Lemma lower_upper_char (c : ascii) : lower_char (upper_char c) = lower_char c.
Proof. by_char c. Qed.

Lemma punct_free_toLowerCase (s : string) :
  punct_free (toLowerCase s) = punct_free s.
Proof.
  induction s as [|c s IH]; [reflexivity|].
  cbn [toLowerCase punct_free]. now rewrite is_punct_lower_char, IH.
Qed.

Lemma toLowerCase_toUpperCase (s : string) :
  toLowerCase (toUpperCase s) = toLowerCase s.
Proof.
  induction s as [|c s IH]; [reflexivity|].
  cbn [toLowerCase toUpperCase]. now rewrite lower_upper_char, IH.
Qed.

Lemma toLowerCase_empty_iff (s : string) : toLowerCase s = "" <-> s = "".
Proof. destruct s; cbn [toLowerCase]; split; congruence. Qed.

Lemma startsWith_spec (s p : string) :
  startsWith s p = true <-> exists post, s = p +:+ post.
Proof.
  revert s. induction p as [|a p IH]; intros s.
  - split; [intros _; exists s; reflexivity | intros _; destruct s; reflexivity].
  - destruct s as [|b s]; cbn [startsWith].
    + split; [discriminate | intros [post H]; discriminate].
    + rewrite andb_true_iff, Ascii.eqb_eq, IH. split.
      * intros [-> [post ->]]. exists post. reflexivity.
      * intros [post H]. rewrite append_cons in H. injection H as -> ->. eauto.
Qed.

Lemma indexOf_from_range (s t : string) (i : Z) :
  indexOf_from s t i = -1 \/ i <= indexOf_from s t i.
Proof.
  revert i. induction s as [|c s IH]; intros i; cbn [indexOf_from].
  - destruct (startsWith "" t); lia.
  - destruct (startsWith (String c s) t); [lia|].
    destruct (IH (i + 1)); lia.
Qed.

Lemma indexOf_from_occurs (s t : string) (i : Z) :
  0 <= i -> (0 <= indexOf_from s t i <-> occurs_in t s).
Proof.
  revert i. induction s as [|c s IH]; intros i Hi; cbn [indexOf_from].
  - destruct (startsWith "" t) eqn:E.
    + split; [intros _ | lia]. apply startsWith_spec in E as [post E].
      exists "", post. exact E.
    + split; [lia|]. intros (pre & post & H).
      destruct pre; [|discriminate]. rewrite append_nil_l in H.
      assert (startsWith "" t = true) by (apply startsWith_spec; eauto).
      congruence.
  - destruct (startsWith (String c s) t) eqn:E.
    + split; [intros _ | lia]. apply startsWith_spec in E as [post E].
      exists "", post. exact E.
    + rewrite (IH (i + 1)) by lia. split.
      * intros (pre & post & ->). exists (String c pre), post. reflexivity.
      * intros (pre & post & H). destruct pre as [|x pre].
        -- rewrite append_nil_l in H.
           assert (startsWith (String c s) t = true) by (apply startsWith_spec; eauto).
           congruence.
        -- rewrite append_cons in H. injection H as _ ->. exists pre, post. reflexivity.
Qed.

(** [indexOf] finds exactly the substrings. *)
Lemma indexOf_occurs (s t : string) : 0 <= indexOf s t <-> occurs_in t s.
Proof. apply indexOf_from_occurs. lia. Qed.

(* ===================================================================== *)
(** * The matcher *)
(* ===================================================================== *)

Section MatcherFacts.

Variable RegExp_gm : string -> option (string -> bool).

Lemma truthyZ_true (z : Z) : truthyZ z = true <-> z <> 0.
Proof. unfold truthyZ. rewrite negb_true_iff, Z.eqb_neq. reflexivity. Qed.

Lemma truthyS_true (o : option string) :
  truthyS o = true <-> exists t, o = Some t /\ t <> "".
Proof.
  destruct o as [t|]; cbn [truthyS].
  - rewrite negb_true_iff, String.eqb_neq. split; [eauto|].
    intros (t' & [= <-] & H). exact H.
  - split; [discriminate | intros (t & [=] & _)].
Qed.

Lemma truthyS_false (o : option string) :
  truthyS o = false <-> o = None \/ o = Some "".
Proof.
  destruct o as [t|]; cbn [truthyS].
  - rewrite negb_false_iff, String.eqb_eq. split; [intros ->; auto|].
    intros [[=]|[= ->]]. reflexivity.
  - split; auto.
Qed.

(** Elements kept by a filter whose callback did not throw. *)
Lemma Array_filter_elem {A : Type} (f : A -> option bool) (l r : list A) :
  Array_filter f l = Some r ->
  forall x, x ∈ r <-> x ∈ l /\ f x = Some true.
Proof.
  revert r. induction l as [|y l IH]; intros r H x; cbn [Array_filter] in H.
  - injection H as <-. split; [intros []%elem_of_nil | intros [[]%elem_of_nil _]].
  - destruct (f y) as [b|] eqn:Ey; [|discriminate].
    destruct (Array_filter f l) as [r'|]; [|discriminate].
    injection H as <-. specialize (IH r' eq_refl x).
    destruct b.
    + rewrite !elem_of_cons, IH.
      split; [intros [->|[? ?]]; auto | intros [[->|?] ?]; auto].
    + rewrite elem_of_cons, IH.
      split; [intros [? ?]; auto | intros [[->|?] ?]; [congruence | auto]].
Qed.

(** The callback reads the message only through [chatNormal]. *)
Lemma matches_chatNormal_ext (dm : bool) (text1 text2 : string) (r : reaction) :
  chatNormal_of r text1 = chatNormal_of r text2 ->
  matches RegExp_gm dm text1 r = matches RegExp_gm dm text2 r.
Proof. intros H. unfold matches. rewrite H. reflexivity. Qed.

(** What the callback computes for a rule that passes both gates. *)
Lemma matches_gates_open (dm : bool) (text : string) (r : reaction) (t : string) :
  trigger r = Some t -> t <> "" -> mention_ok dm r ->
  matches RegExp_gm dm text r =
  if type_is (type r) TYPE_KEYWORD then
    match RegExp_gm ("\b" +:+ triggerNormal_of r t +:+ "\b") with
    | Some re => Some (re (chatNormal_of r text))
    | None => None
    end
  else if type_is (type r) TYPE_MESSAGE then
    Some (String.eqb (chatNormal_of r text) (triggerNormal_of r t))
  else Some (0 <=? indexOf (chatNormal_of r text) (triggerNormal_of r t)).
Proof.
  intros Ht Hne Hm. unfold matches.
  assert (truthyS (trigger r) = true) as -> by (apply truthyS_true; eauto).
  assert (truthyZ (must_mention r) && negb dm = false) as ->.
  { destruct Hm as [->| ->]; [reflexivity | apply andb_false_r]. }
  rewrite Ht. reflexivity.
Qed.

(** With a trigger free of punctuation the code's two normal forms are
    the specification's single one. *)
Lemma normal_forms_agree (r : reaction) (text t : string) :
  (insensitive r <> 0 -> punct_free t = true) ->
  chatNormal_of r text = normalize_spec (insensitive r) text /\
  triggerNormal_of r t = normalize_spec (insensitive r) t.
Proof.
  intros H. unfold chatNormal_of, triggerNormal_of, normalize_spec.
  destruct (truthyZ (insensitive r)) eqn:E; [|split; reflexivity].
  apply truthyZ_true in E. split; [reflexivity|].
  symmetry. apply strip_punctuation_free.
  rewrite punct_free_toLowerCase. auto.
Qed.

(** Case changes of the message are not seen by an insensitive rule. *)
Lemma matches_chat_case (dm : bool) (text1 text2 : string) (r : reaction) :
  insensitive r <> 0 -> toLowerCase text1 = toLowerCase text2 ->
  matches RegExp_gm dm text1 r = matches RegExp_gm dm text2 r.
Proof.
  intros Hi H. apply matches_chatNormal_ext. unfold chatNormal_of.
  apply truthyZ_true in Hi. rewrite Hi, H. reflexivity.
Qed.

(** Punctuation inserted into (or removed from) the message text is not
    seen by an insensitive rule. *)
Lemma matches_chat_punctuation (dm : bool) (a b : string) (c : ascii) (r : reaction) :
  insensitive r <> 0 -> is_punct c = true ->
  matches RegExp_gm dm (a +:+ String c b) r = matches RegExp_gm dm (a +:+ b) r.
Proof.
  intros Hi Hc. apply matches_chatNormal_ext. unfold chatNormal_of.
  apply truthyZ_true in Hi. rewrite Hi.
  rewrite !toLowerCase_app, !strip_punctuation_app. f_equal.
  cbn [toLowerCase]. rewrite strip_punctuation_cons.
  rewrite is_punct_lower_char, Hc. reflexivity.
Qed.

(** Case changes of the trigger are not seen by an insensitive rule. *)
Lemma matches_trigger_case (dm : bool) (text t1 t2 : string) (r : reaction) :
  insensitive r <> 0 -> toLowerCase t1 = toLowerCase t2 ->
  matches RegExp_gm dm text (with_trigger (Some t1) r) = matches RegExp_gm dm text (with_trigger (Some t2) r).
Proof.
  intros Hi H.
  assert (truthyS (Some t1) = truthyS (Some t2)) as E.
  { cbn [truthyS]. f_equal. apply eq_true_iff_eq.
    rewrite !String.eqb_eq, <- (toLowerCase_empty_iff t1), <- (toLowerCase_empty_iff t2), H.
    reflexivity. }
  apply truthyZ_true in Hi.
  unfold matches, triggerNormal_of, chatNormal_of.
  change (trigger (with_trigger (Some t1) r)) with (Some t1).
  change (trigger (with_trigger (Some t2) r)) with (Some t2).
  change (insensitive (with_trigger (Some t1) r)) with (insensitive r).
  change (insensitive (with_trigger (Some t2) r)) with (insensitive r).
  change (default "" (Some t1)) with t1. change (default "" (Some t2)) with t2.
  rewrite E, Hi, H. reflexivity.
Qed.

Lemma rejected_never_selected (r : reaction) (dm : bool) (cleanText : string) :
  matches RegExp_gm dm cleanText r = Some false -> never_selected RegExp_gm r dm cleanText.
Proof.
  intros H. split; [exact H|]. intros _data matching Hm Hin.
  apply (Array_filter_elem _ _ _ Hm) in Hin as [_ Hin]. congruence.
Qed.

(** The effects of a run that returned are the deliveries of the rules
    the filter kept. *)
Lemma handler_returns (client : client) (message : message) (_data : store)
    (effects : list effect) :
  _handleDiscordMessage RegExp_gm client message _data = Returned effects ->
  exists matching : list reaction,
    effects = flat_map (_deliverReaction client message) matching /\
    (matching = [] \/
     matchingReactions RegExp_gm
       (String.eqb (channel_type message) "dm" || isMentioned message)
       (trim (cleanContent message)) _data = Some matching).
Proof.
  unfold _handleDiscordMessage.
  destruct (author_bot message || system message).
  { intros [= <-]. exists []. auto. }
  destruct (String.length (trim (cleanContent message)) =? 0)%nat.
  { intros [= <-]. exists []. auto. }
  destruct (matchingReactions _ _ _ _) as [matching|]; [|discriminate].
  intros [= <-]. exists matching. auto.
Qed.

(** C4. A rule with [must_mention] set never matches a message that is
    neither a direct message nor a mention of the bot, whatever the rule's
    trigger and type and whatever the text.  With the mention state the
    handler computes from such a message (line 134-135), the callback
    answers [false] for the rule and the rule is not among
    [matchingReactions]; and a run of the handler that returns delivers
    exactly the rules of that [matchingReactions], the rule not among
    them. *)
Theorem must_mention_rule_needs_mention (client : client) (message : message)
    (_data : store) (r : reaction) :
  must_mention r <> 0 ->
  channel_type message <> "dm" ->
  isMentioned message = false ->
  let didMentionUs := String.eqb (channel_type message) "dm" || isMentioned message in
  (forall cleanText : string, never_selected RegExp_gm r didMentionUs cleanText) /\
  (forall effects : list effect,
     _handleDiscordMessage RegExp_gm client message _data = Returned effects ->
     exists matching : list reaction,
       (r ∉ matching) /\
       effects = flat_map (_deliverReaction client message) matching /\
       (matching = [] \/
        matchingReactions RegExp_gm didMentionUs (trim (cleanContent message)) _data
          = Some matching)).
Proof.
  intros Hm Hdm Hmention didMentionUs.
  assert (didMentionUs = false) as Hflag.
  { unfold didMentionUs. apply String.eqb_neq in Hdm. rewrite Hdm, Hmention. reflexivity. }
  assert (forall cleanText, never_selected RegExp_gm r didMentionUs cleanText) as Hnever.
  { intros cleanText. apply rejected_never_selected. rewrite Hflag. unfold matches.
    destruct (negb (truthyS (trigger r))); [reflexivity|].
    apply truthyZ_true in Hm. rewrite Hm. reflexivity. }
  split; [exact Hnever|]. intros effects Hrun.
  apply handler_returns in Hrun as (matching & -> & Hmatching).
  exists matching. split; [|split; [reflexivity | exact Hmatching]].
  destruct Hmatching as [-> | Hmatching]; [apply not_elem_of_nil|].
  exact (proj2 (Hnever _) _ _ Hmatching).
Qed.

(** C8. A message written by a bot, a system message, and a message whose
    text trims to the empty string are dropped before any rule is looked
    at: the handler returns with no effect at all, for every rule store
    and every regular-expression engine (also where evaluating a rule
    would throw). *)
Theorem bot_system_and_empty_messages_ignored (client : client)
    (message : message) (_data : store) :
  author_bot message = true \/ system message = true \/
  trim (cleanContent message) = "" ->
  _handleDiscordMessage RegExp_gm client message _data = Returned [].
Proof.
  intros H. unfold _handleDiscordMessage.
  destruct (author_bot message) eqn:Eb; [reflexivity|].
  destruct (system message) eqn:Es; [reflexivity|].
  destruct H as [H | [H | H]]; [discriminate | discriminate |].
  rewrite H. reflexivity.
Qed.

(** C3, amended. For a rule of type [message] with a non-empty trigger,
    and a message that passes the rule's mention gate, the rule is
    selected if and only if the normalized chat text equals the normalized
    trigger, the normalization (lowercase and punctuation removal under
    [insensitive]) being the same on both sides; this for a trigger that
    holds none of the six punctuation characters when [insensitive] is
    set. *)
Theorem message_rule_matches_exactly (dm : bool) (cleanText : string)
    (r : reaction) (t : string) :
  type r = Some TYPE_MESSAGE ->
  trigger r = Some t -> t <> "" ->
  mention_ok dm r ->
  (insensitive r <> 0 -> punct_free t = true) ->
  matches RegExp_gm dm cleanText r = Some true <->
  normalize_spec (insensitive r) cleanText = normalize_spec (insensitive r) t.
Proof.
  intros Hty Ht Hne Hm Hp.
  rewrite (matches_gates_open dm cleanText r t Ht Hne Hm), Hty.
  change (type_is (Some TYPE_MESSAGE) TYPE_KEYWORD) with false.
  change (type_is (Some TYPE_MESSAGE) TYPE_MESSAGE) with true. cbv iota.
  destruct (normal_forms_agree r cleanText t Hp) as [-> ->].
  rewrite <- String.eqb_eq. split; [intros [= ->]; reflexivity | intros ->; reflexivity].
Qed.

(** C9, amended. For a rule whose type is missing or is neither [keyword]
    nor [message], with a non-empty trigger, and a message that passes the
    rule's mention gate, the rule is selected if and only if the
    normalized trigger occurs as a substring of the normalized chat text;
    this for a trigger that holds none of the six punctuation characters
    when [insensitive] is set. *)
Theorem other_types_match_by_substring (dm : bool) (cleanText : string)
    (r : reaction) (t : string) :
  type r <> Some TYPE_KEYWORD -> type r <> Some TYPE_MESSAGE ->
  trigger r = Some t -> t <> "" ->
  mention_ok dm r ->
  (insensitive r <> 0 -> punct_free t = true) ->
  matches RegExp_gm dm cleanText r = Some true <->
  occurs_in (normalize_spec (insensitive r) t) (normalize_spec (insensitive r) cleanText).
Proof.
  intros Hk Hmsg Ht Hne Hm Hp.
  rewrite (matches_gates_open dm cleanText r t Ht Hne Hm).
  assert (forall label, type r <> Some label -> type_is (type r) label = false) as Hno.
  { intros label H. destruct (type r) as [s|]; [|reflexivity]. cbn [type_is].
    apply String.eqb_neq. congruence. }
  rewrite (Hno _ Hk), (Hno _ Hmsg).
  destruct (normal_forms_agree r cleanText t Hp) as [-> ->].
  rewrite <- indexOf_occurs, <- Z.leb_le.
  split; [intros [= ->]; reflexivity | intros ->; reflexivity].
Qed.

(** An insensitive rule of another type than [keyword] whose trigger
    holds one of the six punctuation characters is dead: the punctuation
    is removed from the chat text only, so no message matches it. *)
Lemma punctuated_trigger_never_matches (dm : bool) (cleanText : string)
    (r : reaction) (t : string) :
  insensitive r <> 0 -> type r <> Some TYPE_KEYWORD ->
  trigger r = Some t -> punct_free t = false ->
  matches RegExp_gm dm cleanText r = Some false.
Proof.
  intros Hi Hk Ht Hp. unfold matches.
  destruct (negb (truthyS (trigger r))); [reflexivity|].
  destruct (truthyZ (must_mention r) && negb dm); [reflexivity|].
  assert (type_is (type r) TYPE_KEYWORD = false) as ->.
  { destruct (type r) as [s|]; [|reflexivity]. cbn [type_is].
    apply String.eqb_neq. congruence. }
  rewrite Ht. change (default "" (Some t)) with t.
  unfold chatNormal_of, triggerNormal_of. apply truthyZ_true in Hi. rewrite Hi.
  assert (forall s, punct_free (strip_punctuation s) = true) as Hfree.
  { induction s as [|c s IH]; [reflexivity|]. rewrite strip_punctuation_cons.
    destruct (is_punct c) eqn:E; [exact IH|]. cbn [punct_free]. now rewrite E, IH. }
  assert (forall a b, punct_free (a +:+ b) = punct_free a && punct_free b) as Happ.
  { induction a as [|c a IH]; intros b; [reflexivity|].
    rewrite append_cons. cbn [punct_free]. now rewrite IH, andb_assoc. }
  assert (~ occurs_in (toLowerCase t) (strip_punctuation (toLowerCase cleanText))) as Hno.
  { intros (pre & post & E).
    pose proof (Hfree (toLowerCase cleanText)) as F.
    rewrite E, !Happ, punct_free_toLowerCase, Hp, andb_false_r in F. discriminate. }
  destruct (type_is (type r) TYPE_MESSAGE); f_equal.
  - apply String.eqb_neq. intros E. apply Hno. exists "", "".
    rewrite append_nil_l, append_nil_r. exact E.
  - apply Z.leb_gt. rewrite <- indexOf_occurs in Hno. lia.
Qed.

End MatcherFacts.

(* ===================================================================== *)
(** * The rule store *)
(* ===================================================================== *)

Section StoreFacts.

Implicit Types (db : Database) (_data : store) (k : PropKey) (r : reaction).

Lemma is_false_true (v : value) : is_false v = true <-> v = VBool false.
Proof. destruct v as [| |[]| |]; cbn; split; congruence. Qed.

Lemma or_null_not_blank (o : option string) : or_null o <> Some "".
Proof.
  unfold or_null. destruct (truthyS o) eqn:E; [|discriminate].
  apply truthyS_true in E as (t & -> & Hne). congruence.
Qed.

Lemma flag01_range (v : value) : flag01 v = 0 \/ flag01 v = 1.
Proof.
  unfold flag01. destruct (parseInt v) as [[|[]|]|]; auto.
Qed.

Lemma parseInt_or_null_Some (v : value) (i : Z) :
  parseInt_or_null v = Some i <-> parseInt v = Some i /\ i <> 0.
Proof.
  unfold parseInt_or_null. destruct (parseInt v) as [z|]; [|split; [discriminate | intros [[=] _]]].
  destruct (Z.eqb_spec z 0) as [-> | Hz].
  - split; [discriminate | intros [[= <-] H]; contradiction].
  - split; [intros [= <-]; auto | intros [[= <-] _]; reflexivity].
Qed.

(** The write handler's input is normalized by [upsertData_of]. *)
Lemma upsertData_of_normalized (data : write_data) :
  normalized (upsertData_of data).
Proof.
  unfold normalized, upsertData_of; cbn.
  repeat split; auto using flag01_range, or_null_not_blank.
  intros H. apply parseInt_or_null_Some in H as [_ H]. contradiction.
Qed.

(** The loop of [reloadAll], from any mapping. *)
Lemma load_lookup_notin (rows : list reaction) _data k :
  k ∉ (key_of_id ∘ id) <$> rows ->
  foldl (fun d row => <[key_of_id (id row) := row]> d) _data rows !! k = _data !! k.
Proof.
  revert _data. induction rows as [|r0 rows IH]; intros _data Hk; [reflexivity|].
  cbn [foldl]. rewrite fmap_cons, not_elem_of_cons in Hk. destruct Hk as [Hne Hk].
  rewrite IH by exact Hk. apply lookup_insert_ne. cbn in Hne. congruence.
Qed.

Lemma load_lookup_Some (rows : list reaction) _data k r :
  foldl (fun d row => <[key_of_id (id row) := row]> d) _data rows !! k = Some r ->
  (r ∈ rows /\ key_of_id (id r) = k) \/ _data !! k = Some r.
Proof.
  revert _data. induction rows as [|r0 rows IH]; intros _data H; [auto|].
  cbn [foldl] in H. apply IH in H as [[Hin Hk] | H].
  - left. split; [apply elem_of_cons; auto | exact Hk].
  - destruct (decide (key_of_id (id r0) = k)) as [E | E].
    + rewrite <- E, lookup_insert_eq in H. injection H as <-.
      left. split; [apply elem_of_cons; auto | exact E].
    + rewrite lookup_insert_ne in H by exact E. auto.
Qed.

Lemma load_lookup_kept (rows : list reaction) _data k :
  is_Some (_data !! k) ->
  is_Some (foldl (fun d row => <[key_of_id (id row) := row]> d) _data rows !! k).
Proof.
  revert _data. induction rows as [|r0 rows IH]; intros _data H; [exact H|].
  cbn [foldl]. apply IH. destruct (decide (key_of_id (id r0) = k)) as [<- | E].
  - rewrite lookup_insert_eq. eauto.
  - rewrite lookup_insert_ne by exact E. exact H.
Qed.

Lemma load_lookup_in (rows : list reaction) _data r :
  r ∈ rows ->
  is_Some (foldl (fun d row => <[key_of_id (id row) := row]> d) _data rows !! key_of_id (id r)).
Proof.
  revert _data. induction rows as [|r0 rows IH]; intros _data Hin.
  - apply elem_of_nil in Hin as [].
  - cbn [foldl]. apply elem_of_cons in Hin as [-> | Hin]; [|apply IH, Hin].
    apply load_lookup_kept. rewrite lookup_insert_eq. eauto.
Qed.

Lemma load_lookup_NoDup (rows : list reaction) _data r :
  NoDup ((key_of_id ∘ id) <$> rows) -> r ∈ rows ->
  foldl (fun d row => <[key_of_id (id row) := row]> d) _data rows !! key_of_id (id r) = Some r.
Proof.
  revert _data. induction rows as [|r0 rows IH]; intros _data Hnd Hin.
  - apply elem_of_nil in Hin as [].
  - rewrite fmap_cons in Hnd. apply NoDup_cons in Hnd as [Hfresh Hnd].
    cbn [foldl]. apply elem_of_cons in Hin as [-> | Hin]; [|apply IH; assumption].
    rewrite load_lookup_notin by exact Hfresh. apply lookup_insert_eq.
Qed.

Lemma load_lookup_last (before after : list reaction) _data r :
  key_of_id (id r) ∉ (key_of_id ∘ id) <$> after ->
  foldl (fun d row => <[key_of_id (id row) := row]> d) _data (before ++ r :: after)
    !! key_of_id (id r) = Some r.
Proof.
  intros H. rewrite foldl_app. cbn [foldl].
  rewrite load_lookup_notin by exact H. apply lookup_insert_eq.
Qed.

(** C2, amended. [reloadAll()] signals a failed read of the persistent
    store by returning [false] (it raises nothing) and then leaves the
    mapping as it was; otherwise it replaces the entire mapping by the
    rows read, keyed by id, whatever the mapping was before, logs their
    number and returns [true].  Every entry of the new mapping is a row
    read, every row read has its id among the keys, and a later row
    replaces an earlier one of the same id: the entry of an id is the
    last row read that carries it.  Rows are not validated. *)
Theorem reloadAll_replaces_the_mapping db _data :
  match prepare_all db "SELECT * FROM reactions;" with
  | None => reloadAll db _data = (_data, VBool false, [Log LvlE []])
  | Some rows =>
      exists _data' : store,
        reloadAll db _data =
          (_data', VBool true, [Log LvlD [VNum (Z.of_nat (length rows))]]) /\
        (forall old : store, (reloadAll db old).1.1 = _data') /\
        (forall k r, _data' !! k = Some r -> r ∈ rows /\ key_of_id (id r) = k) /\
        (forall r, r ∈ rows -> is_Some (_data' !! key_of_id (id r))) /\
        (NoDup ((key_of_id ∘ id) <$> rows) ->
         forall r, r ∈ rows -> _data' !! key_of_id (id r) = Some r) /\
        (forall (before after : list reaction) r,
           rows = before ++ r :: after ->
           key_of_id (id r) ∉ (key_of_id ∘ id) <$> after ->
           _data' !! key_of_id (id r) = Some r)
  end.
Proof.
  unfold reloadAll. destruct (prepare_all db _) as [rows|]; [|reflexivity].
  eexists. split; [reflexivity|]. split; [reflexivity|]. split; [|split; [|split]].
  - intros k r H. apply load_lookup_Some in H as [H | H]; [exact H|].
    rewrite lookup_empty in H. discriminate.
  - intros r. apply load_lookup_in.
  - intros Hnd r. apply load_lookup_NoDup, Hnd.
  - intros before after r -> H. apply load_lookup_last, H.
Qed.

(** The two ways the write handler can run. *)
Lemma write_cases db (data : write_data) _data :
  let input := upsertData_of data in
  let result := insertOrUpdate db "reactions" input in
  (result = VBool false /\
   _handleApiWriteReaction db data _data = (_data, VBool false)) \/
  (result <> VBool false /\
   _handleApiWriteReaction db data _data =
     (<[key_of_number (parseInt result) :=
          set_id (match id input with
                  | Some i => Some i
                  | None => parseInt_or_null result
                  end) input]> _data, VUndefined)).
Proof.
  cbv zeta. unfold _handleApiWriteReaction.
  destruct (is_false _) eqn:E; [left; apply is_false_true in E; auto|].
  right. split; [intros H; apply is_false_true in H; congruence|].
  pose proof (proj1 (upsertData_of_normalized data)) as Hid.
  generalize dependent (upsertData_of data). intros input E Hid.
  generalize dependent (insertOrUpdate db "reactions" input). intros result _.
  do 2 f_equal.
  destruct input as [i ty tr mm ins resp em dm]. unfold set_id. cbn in *.
  destruct i as [i|].
  - assert (i <> 0) as Hi by congruence.
    cbn [truthyN]. apply Z.eqb_neq in Hi. rewrite Hi. reflexivity.
  - cbn [truthyN negb andb]. unfold parseInt_or_null, truthyN.
    destruct (parseInt result) as [z|]; [|reflexivity].
    destruct (z =? 0); reflexivity.
Qed.

(** The rule a successful write stores is the request, field by field. *)
Lemma write_stores_the_request db (data : write_data) _data :
  insertOrUpdate db "reactions" (upsertData_of data) <> VBool false ->
  exists stored : reaction,
    _handleApiWriteReaction db data _data =
      (<[key_of_number (parseInt (insertOrUpdate db "reactions" (upsertData_of data)))
         := stored]> _data, VUndefined) /\
    written_as data (insertOrUpdate db "reactions" (upsertData_of data)) stored.
Proof.
  intros Hok.
  destruct (write_cases db data _data) as [[Hfail _] | [_ ->]]; [contradiction|].
  eexists. split; [reflexivity|].
  generalize (insertOrUpdate db "reactions" (upsertData_of data)). intros result.
  unfold written_as, upsertData_of, set_id, flag01, or_null, parseInt_or_null, truthyS.
  cbn [id type trigger must_mention insensitive response emote do_mention].
  repeat split.
  - destruct (d_type data) as [t|]; [|reflexivity]. destruct (String.eqb t ""); reflexivity.
  - destruct (d_trigger data) as [t|]; [|reflexivity]. destruct (String.eqb t ""); reflexivity.
  - destruct (d_response data) as [t|]; [|reflexivity]. destruct (String.eqb t ""); reflexivity.
  - destruct (d_emote data) as [raw|]; [|reflexivity].
    destruct (String.eqb raw "") eqn:E; cbn [negb default];
      [apply String.eqb_eq in E as ->|]; destruct (String.eqb (trim _) ""); reflexivity.
Qed.


(** The three ways the delete handler can run. *)
Lemma delete_cases db (ws : socket) (data_id : value) _data :
  (exists i, parseInt data_id = Some i /\ 0 < i /\
     _handleApiReactionDelete db ws data_id _data =
       let after := if deleteIfExists db "reactions" i
                    then delete (KInt i) _data else _data in
       (after, [WsSend ws API_OP_REACTIONS_FETCH (Object_values after)])) \/
  ((forall i, parseInt data_id = Some i -> i <= 0) /\
   _handleApiReactionDelete db ws data_id _data = (_data, [])).
Proof.
  unfold _handleApiReactionDelete, _handleApiReactionsFetch, parseInt_or_null.
  destruct (parseInt data_id) as [z|]; [|right; split; [discriminate | reflexivity]].
  destruct (Z.eqb_spec z 0) as [-> | Hz].
  { right. split; [intros i [= <-]; lia | reflexivity]. }
  destruct (Z.ltb_spec 0 z) as [Hpos | Hneg].
  - left. exists z. auto.
  - right. split; [intros i [= <-]; lia | reflexivity].
Qed.

(** C7. Deleting an id that the rule store does not hold is a no-op and
    not an error: the handler returns and the mapping is the same mapping
    afterwards; likewise when the persistent store reports that no row was
    removed.  A delete never touches the entry of another key than the
    given id's.  For a request whose id is in the safe range of numbers. *)
Theorem delete_of_absent_id_changes_nothing db (ws : socket) (data_id : value) _data :
  in_safe_range data_id ->
  let after := (_handleApiReactionDelete db ws data_id _data).1 in
  ((forall i, parseInt data_id = Some i -> _data !! KInt i = None) -> after = _data) /\
  ((forall i, parseInt data_id = Some i -> deleteIfExists db "reactions" i = false) ->
   after = _data) /\
  (forall k, (forall i, parseInt data_id = Some i -> k <> KInt i) ->
             after !! k = _data !! k).
Proof.
  intros _. cbv zeta.
  destruct (delete_cases db ws data_id _data) as [(i & Hi & Hpos & ->) | [_ ->]];
    [|repeat split; reflexivity].
  cbn [fst]. repeat split.
  - intros H. destruct (deleteIfExists db "reactions" i); [|reflexivity].
    apply delete_id, H, Hi.
  - intros H. rewrite (H i Hi). reflexivity.
  - intros k H. destruct (deleteIfExists db "reactions" i); [|reflexivity].
    apply lookup_delete_ne. intros E. exact (H i Hi (eq_sym E)).
Qed.

(** C10. A delete request whose id parses to a positive integer is
    answered with one broadcast of the full rule list to the requester,
    built from the mapping as the handler leaves it, also when no rule has
    that id (the mapping is then unchanged and is what is sent).  A request
    whose id is missing, zero, negative or unparseable does nothing: no
    change of state and no broadcast.  For a request whose id is in the
    safe range of numbers. *)
Theorem delete_acknowledges_positive_ids_only db (ws : socket) (data_id : value) _data :
  in_safe_range data_id ->
  (forall i, parseInt data_id = Some i -> 0 < i ->
     (exists after : store,
        _handleApiReactionDelete db ws data_id _data =
          (after, [WsSend ws API_OP_REACTIONS_FETCH (Object_values after)])) /\
     (_data !! KInt i = None ->
      _handleApiReactionDelete db ws data_id _data =
        (_data, [WsSend ws API_OP_REACTIONS_FETCH (Object_values _data)]))) /\
  ((forall i, parseInt data_id = Some i -> i <= 0) ->
   _handleApiReactionDelete db ws data_id _data = (_data, [])).
Proof.
  intros _.
  destruct (delete_cases db ws data_id _data) as [(j & Hj & Hpos & ->) | [Hnot ->]].
  - split.
    + intros i Hi _. assert (i = j) as -> by congruence. cbv zeta. split; [eauto|].
      intros Habsent. destruct (deleteIfExists db "reactions" j); [|reflexivity].
      rewrite (delete_id _ _ Habsent). reflexivity.
    + intros H. specialize (H j Hj). lia.
  - split; [|reflexivity]. intros i Hi Hpos. specialize (Hnot i Hi). lia.
Qed.

(** A write request with no trigger, or a blank one, stores a rule with
    no trigger. *)
Lemma write_stores_rule_without_trigger db (data : write_data) _data :
  d_trigger data = None \/ d_trigger data = Some "" ->
  insertOrUpdate db "reactions" (upsertData_of data) <> VBool false ->
  exists k r, (_handleApiWriteReaction db data _data).1 !! k = Some r /\ trigger r = None.
Proof.
  intros Ht Hok.
  destruct (write_cases db data _data) as [[Hfail _] | [_ ->]]; [contradiction|].
  eexists _, _. cbn [fst]. split; [apply lookup_insert_eq|].
  unfold set_id, upsertData_of; cbn. unfold or_null.
  apply truthyS_false in Ht. rewrite Ht. reflexivity.
Qed.

End StoreFacts.

(** C5. A rule whose trigger is missing or empty can be in the rule store
    (a reload keeps such a row as it is) but is never selected, for every
    message, mention state, rule type and flag combination: the callback
    answers [false] before the type is looked at, the rule is not among
    [matchingReactions], and the effects of the handler are deliveries of
    other rules only. *)
Theorem rule_without_trigger_is_inert (RegExp_gm : string -> option (string -> bool))
    (r : reaction) :
  trigger r = None \/ trigger r = Some "" ->
  (forall (db : Database) (_data : store),
     prepare_all db "SELECT * FROM reactions;" = Some [r] ->
     (reloadAll db _data).1.1 !! key_of_id (id r) = Some r) /\
  (forall (dm : bool) (cleanText : string), never_selected RegExp_gm r dm cleanText) /\
  (forall (client : client) (message : message) (_data : store) (effects : list effect),
     _handleDiscordMessage RegExp_gm client message _data = Returned effects ->
     exists matching : list reaction,
       (r ∉ matching) /\ effects = flat_map (_deliverReaction client message) matching).
Proof.
  intros Ht%truthyS_false.
  assert (forall dm cleanText, never_selected RegExp_gm r dm cleanText) as Hnever.
  { intros dm cleanText. apply rejected_never_selected. unfold matches.
    rewrite Ht. reflexivity. }
  split; [|split; [exact Hnever|]].
  - intros db _data Hrows. unfold reloadAll. rewrite Hrows. cbn.
    apply lookup_insert_eq.
  - intros client message _data effects Hrun.
    apply handler_returns in Hrun as (matching & -> & Hmatching).
    exists matching. split; [|reflexivity].
    destruct Hmatching as [-> | Hmatching]; [apply not_elem_of_nil|].
    exact (proj2 (Hnever _ _) _ _ Hmatching).
Qed.

(* ===================================================================== *)
(** * The code on concrete inputs *)
(* ===================================================================== *)

Example parseInt_examples :
  parseInt (VStr " 42px") = Some 42 /\ parseInt (VStr "-7") = Some (-7) /\
  parseInt (VStr "0x1f") = Some 31 /\ parseInt (VStr "abc") = None /\
  parseInt (VStr "") = None /\ parseInt VUndefined = None /\
  parseInt (VNum 5) = Some 5.
Proof. repeat split; reflexivity. Qed.

Example string_examples :
  trim "  hi there " = "hi there" /\ toLowerCase "I love Cats!" = "i love cats!" /\
  replaceAll "!" "" "a!b!!" = "ab" /\ indexOf "concatenate" "cat" = 3 /\
  indexOf "dog" "cat" = -1 /\ split " " "a  b" = ["a"; ""; "b"] /\
  endsWith ":tada:" ":" = true /\ substr 1 4 ":tada:" = "tada" /\ substr 1 (-1) ":" = "".
Proof. repeat split; reflexivity. Qed.

Example upsertData_of_sample :
  upsertData_of sample_write =
  {| id := None; type := Some "text"; trigger := Some "dog";
     must_mention := 1; insensitive := 0;
     response := None; emote := Some ":tada:"; do_mention := 1 |}.
Proof. reflexivity. Qed.

(** A substring rule fires inside a longer word; the custom emote is
    resolved, the plain one is sent as it is. *)
Example concatenate_matches_cat :
  _handleDiscordMessage RegExp_rejecting sample_client
    (message_of false false "concatenate") sample_store
  = Returned [React "99"; React "x"].
Proof. vm_compute. reflexivity. Qed.

(** The gates come first: with a keyword rule whose pattern the engine
    rejects, a user's message makes the filter throw, a bot's message
    does not reach it. *)
Example gates_precede_the_rules :
  let _data := <[KInt 7 := rule_keyword]> sample_store in
  _handleDiscordMessage RegExp_rejecting sample_client (message_of false false "cat") _data
    = Threw /\
  _handleDiscordMessage RegExp_rejecting sample_client (message_of true false "cat") _data
    = Returned [].
Proof. split; vm_compute; reflexivity. Qed.

(** Through the handler, white space is trimmed before the punctuation is
    removed: [hi !] leaves [hi ] with its space, which is not the trigger. *)
Example trim_precedes_punctuation :
  matches RegExp_rejecting false (trim "hi !") rule_hi = Some false /\
  matches RegExp_rejecting false (trim "hi ") rule_hi = Some true.
Proof. split; reflexivity. Qed.

(** C1 (the code departs from the claim). An insensitive rule is not
    invariant under removal of punctuation from its trigger: for the
    message [hi!] the rule with trigger [hi!] is rejected and the same
    rule with trigger [hi] is selected, by the callback and through the
    handler.  The punctuation is removed from the chat text only. *)
Theorem trigger_punctuation_is_not_removed (RegExp_gm : string -> option (string -> bool)) :
  insensitive rule_hi_bang = 1 /\
  rule_hi = with_trigger (Some (strip_punctuation "hi!")) rule_hi_bang /\
  matches RegExp_gm false "hi!" rule_hi_bang = Some false /\
  matches RegExp_gm false "hi!" rule_hi = Some true /\
  _handleDiscordMessage RegExp_gm sample_client (message_of false false "hi!")
    (<[KInt 1 := rule_hi_bang]> ∅) = Returned [] /\
  _handleDiscordMessage RegExp_gm sample_client (message_of false false "hi!")
    (<[KInt 1 := rule_hi]> ∅)
  = Returned [Log LvlD [VStr "hello"; VStr "hi!"]; ChannelSend "hello"].
Proof. repeat split; vm_compute; reflexivity. Qed.

(** C2, as stated, fails: a successful reload of two rows returns [true],
    not the count 2, and a row with no id is loaded (under the key
    [null]) instead of making the reload fail. *)
Lemma reloadAll_returns_true_and_takes_any_row :
  (reloadAll (db_up [rule_hi; rule_mention]) ∅).1.2 = VBool true /\
  (reloadAll (db_up [rule_hi; rule_mention]) ∅).1.2 <> VNum 2 /\
  (reloadAll (db_up [row_without_id]) ∅).1.2 = VBool true /\
  (reloadAll (db_up [row_without_id]) ∅).1.1 !! KNull = Some row_without_id.
Proof. repeat split; try discriminate; vm_compute; reflexivity. Qed.

(** C3, as stated, fails.  With [must_mention] set and no mention, a
    [message] rule is rejected although chat text and trigger are equal;
    and an insensitive [message] rule with trigger [hi!] is rejected for
    the message [Hi] although both normalize to [hi]. *)
Lemma message_rule_rejected_despite_equal_normal_forms :
  (type rule_mention = Some TYPE_MESSAGE /\
   trigger rule_mention = Some "hi" /\
   normalize_spec (insensitive rule_mention) "hi" = normalize_spec (insensitive rule_mention) "hi" /\
   forall re, matches re false "hi" rule_mention = Some false) /\
  (type rule_hi_bang = Some TYPE_MESSAGE /\
   trigger rule_hi_bang = Some "hi!" /\
   normalize_spec (insensitive rule_hi_bang) "Hi" = normalize_spec (insensitive rule_hi_bang) "hi!" /\
   forall re, matches re true "Hi" rule_hi_bang = Some false).
Proof. repeat split. Qed.

(** C9, as stated, fails.  With [must_mention] set and no mention, a rule
    with no type is rejected although its trigger occurs in the chat text;
    and an insensitive rule of an unknown type with trigger [cat.] is
    rejected for the message [Cat] although the normalized trigger [cat]
    occurs in the normalized text. *)
Lemma untyped_rule_rejected_despite_substring :
  (type rule_cat_mention = None /\
   trigger rule_cat_mention = Some "cat" /\
   occurs_in (normalize_spec (insensitive rule_cat_mention) "cat")
             (normalize_spec (insensitive rule_cat_mention) "concatenate") /\
   forall re, matches re false "concatenate" rule_cat_mention = Some false) /\
  (type rule_cat_dot = Some "other" /\
   trigger rule_cat_dot = Some "cat." /\
   occurs_in (normalize_spec (insensitive rule_cat_dot) "cat.")
             (normalize_spec (insensitive rule_cat_dot) "Cat") /\
   forall re, matches re true "Cat" rule_cat_dot = Some false).
Proof.
  repeat split.
  - exists "con", "enate". reflexivity.
  - exists "", "". reflexivity.
Qed.

(* ===================================================================== *)
(** * The theorems at concrete inputs *)
(* ===================================================================== *)

(** [reloadAll] on two rows of distinct ids: both are in the new mapping;
    and on two rows of the same id: the later one is. *)
Lemma reloadAll_replaces_the_mapping_at_two_rows :
  NoDup ((key_of_id ∘ id) <$> [rule_hi; rule_mention]) /\
  (exists _data' : store,
    reloadAll (db_up [rule_hi; rule_mention]) sample_store =
      (_data', VBool true, [Log LvlD [VNum 2]]) /\
    _data' !! KInt 1 = Some rule_hi /\ _data' !! KInt 2 = Some rule_mention /\
    _data' !! KInt 3 = None) /\
  (exists _data' : store,
    reloadAll (db_up [rule_hi; rule_hi_bang]) sample_store =
      (_data', VBool true, [Log LvlD [VNum 2]]) /\
    _data' !! KInt 1 = Some rule_hi_bang).
Proof.
  assert (NoDup ((key_of_id ∘ id) <$> [rule_hi; rule_mention])) as Hnd.
  { apply NoDup_cons. split; [|apply NoDup_singleton].
    intros H. apply list_elem_of_singleton in H. discriminate H. }
  split; [exact Hnd|]. split.
  - destruct (reloadAll_replaces_the_mapping (db_up [rule_hi; rule_mention]) sample_store)
      as (_data' & Hrun & _ & Honly & _ & Hall & _).
    exists _data'. split; [exact Hrun|]. split; [|split].
    + apply (Hall Hnd rule_hi). apply elem_of_cons. left. reflexivity.
    + apply (Hall Hnd rule_mention). apply elem_of_cons. right.
      apply elem_of_cons. left. reflexivity.
    + destruct (_data' !! KInt 3) as [r|] eqn:E; [|reflexivity].
      destruct (Honly _ _ E) as [Hin Hk].
      apply elem_of_cons in Hin as [-> | Hin]; [discriminate Hk|].
      apply list_elem_of_singleton in Hin as ->. discriminate Hk.
  - destruct (reloadAll_replaces_the_mapping (db_up [rule_hi; rule_hi_bang]) sample_store)
      as (_data' & Hrun & _ & _ & _ & _ & Hlast).
    exists _data'. split; [exact Hrun|].
    apply (Hlast [rule_hi] [] rule_hi_bang); [reflexivity | apply not_elem_of_nil].
Defined.

(** The message rule [rule_hi] and the message [Hi!]. *)
Lemma message_rule_matches_exactly_at_hi :
  (matches RegExp_rejecting false "Hi!" rule_hi = Some true <->
   normalize_spec 1 "Hi!" = normalize_spec 1 "hi") /\
  matches RegExp_rejecting false "Hi!" rule_hi = Some true.
Proof.
  assert (matches RegExp_rejecting false "Hi!" rule_hi = Some true <->
          normalize_spec 1 "Hi!" = normalize_spec 1 "hi") as H.
  { apply (message_rule_matches_exactly RegExp_rejecting false "Hi!" rule_hi "hi").
    - reflexivity.
    - reflexivity.
    - discriminate.
    - left. reflexivity.
    - intros _. reflexivity. }
  split; [exact H|]. apply H. reflexivity.
Defined.

(** The rule [rule_mention] and a message in a shared channel that does
    not mention the bot. *)
Lemma must_mention_rule_needs_mention_at_sample :
  (forall cleanText : string, never_selected RegExp_rejecting rule_mention false cleanText) /\
  _handleDiscordMessage RegExp_rejecting sample_client
    (message_of false false "hi") sample_store
  = Returned [Log LvlD [VStr "hello"; VStr "hi"]; ChannelSend "hello"] /\
  (exists matching : list reaction,
     (rule_mention ∉ matching) /\
     [Log LvlD [VStr "hello"; VStr "hi"]; ChannelSend "hello"]
     = flat_map (_deliverReaction sample_client (message_of false false "hi")) matching /\
     (matching = [] \/
      matchingReactions RegExp_rejecting false "hi" sample_store = Some matching)).
Proof.
  destruct (must_mention_rule_needs_mention RegExp_rejecting sample_client
              (message_of false false "hi") sample_store rule_mention) as [Hnever Hrun].
  - discriminate.
  - discriminate.
  - reflexivity.
  - split; [exact Hnever|]. split; [reflexivity|]. apply Hrun. reflexivity.
Defined.

(** A rule with no trigger, loaded from the store. *)
Lemma rule_without_trigger_is_inert_at_rule_blank :
  (reloadAll (db_up [rule_blank]) sample_store).1.1 !! KInt 6 = Some rule_blank /\
  never_selected RegExp_rejecting rule_blank true "anything".
Proof.
  destruct (rule_without_trigger_is_inert RegExp_rejecting rule_blank) as (Hload & Hnever & _).
  - left. reflexivity.
  - split; [|apply Hnever]. apply (Hload (db_up [rule_blank]) sample_store). reflexivity.
Defined.


(** Deleting the id 9, which the sample store does not hold. *)
Lemma delete_of_absent_id_changes_nothing_at_9 :
  (_handleApiReactionDelete (db_up []) 0%nat (VStr "9") sample_store).1 = sample_store.
Proof.
  apply (proj1 (delete_of_absent_id_changes_nothing (db_up []) 0%nat (VStr "9") sample_store
                  ltac:(safe_value))).
  intros i [= <-]. reflexivity.
Defined.

(** A bot's message, a system message and a blank message. *)
Lemma bot_system_and_empty_messages_ignored_at_samples :
  _handleDiscordMessage RegExp_rejecting sample_client
    (message_of true false "cat") sample_store = Returned [] /\
  _handleDiscordMessage RegExp_rejecting sample_client
    (message_of false true "cat") sample_store = Returned [] /\
  _handleDiscordMessage RegExp_rejecting sample_client
    (message_of false false "   ") sample_store = Returned [].
Proof.
  split; [|split];
    apply (bot_system_and_empty_messages_ignored RegExp_rejecting).
  - left. reflexivity.
  - right. left. reflexivity.
  - right. right. reflexivity.
Defined.

(** The untyped rule [rule_cat] and the message [concatenate]. *)
Lemma other_types_match_by_substring_at_cat :
  (matches RegExp_rejecting false "concatenate" rule_cat = Some true <->
   occurs_in (normalize_spec 0 "cat") (normalize_spec 0 "concatenate")) /\
  matches RegExp_rejecting false "concatenate" rule_cat = Some true.
Proof.
  assert (matches RegExp_rejecting false "concatenate" rule_cat = Some true <->
          occurs_in (normalize_spec 0 "cat") (normalize_spec 0 "concatenate")) as H.
  { apply (other_types_match_by_substring RegExp_rejecting false "concatenate" rule_cat "cat").
    - discriminate.
    - discriminate.
    - reflexivity.
    - discriminate.
    - left. reflexivity.
    - intros Hi. exfalso. apply Hi. reflexivity. }
  split; [exact H|]. apply H. exists "con", "enate". reflexivity.
Defined.

(** Delete requests for the ids 9 (not held), 0 and a non-number. *)
Lemma delete_acknowledges_positive_ids_only_at_samples :
  _handleApiReactionDelete (db_up []) 0%nat (VStr "9") sample_store =
    (sample_store, [WsSend 0%nat API_OP_REACTIONS_FETCH (Object_values sample_store)]) /\
  _handleApiReactionDelete (db_up []) 0%nat (VNum 0) sample_store = (sample_store, []) /\
  _handleApiReactionDelete (db_up []) 0%nat (VStr "all") sample_store = (sample_store, []).
Proof.
  split; [|split].
  - destruct (delete_acknowledges_positive_ids_only (db_up []) 0%nat (VStr "9") sample_store
                ltac:(safe_value)) as [H _].
    destruct (H 9) as [_ H9]; [reflexivity | reflexivity |].
    apply H9. reflexivity.
  - apply (proj2 (delete_acknowledges_positive_ids_only (db_up []) 0%nat (VNum 0) sample_store
                    ltac:(safe_value))).
    intros i [= <-]. discriminate.
  - apply (proj2 (delete_acknowledges_positive_ids_only (db_up []) 0%nat (VStr "all") sample_store
                    ltac:(safe_value))).
    intros i [=].
Defined.

(** X1. For a rule with [insensitive] set, the callback's answer does not
    change with the case of the message text or of the trigger, nor with
    a punctuation character of the set inserted into or removed from the
    message text. *)
Theorem insensitive_rule_ignores_case_and_chat_punctuation
    (RegExp_gm : string -> option (string -> bool)) (dm : bool) (r : reaction) :
  insensitive r <> 0 ->
  (forall text1 text2 : string,
     toLowerCase text1 = toLowerCase text2 ->
     matches RegExp_gm dm text1 r = matches RegExp_gm dm text2 r) /\
  (forall (a b : string) (c : ascii),
     is_punct c = true ->
     matches RegExp_gm dm (a +:+ String c b) r = matches RegExp_gm dm (a +:+ b) r) /\
  (forall text t1 t2 : string,
     toLowerCase t1 = toLowerCase t2 ->
     matches RegExp_gm dm text (with_trigger (Some t1) r) =
     matches RegExp_gm dm text (with_trigger (Some t2) r)).
Proof.
  intros Hi. split; [|split].
  - intros text1 text2. apply matches_chat_case, Hi.
  - intros a b c. apply matches_chat_punctuation, Hi.
  - intros text t1 t2. apply matches_trigger_case, Hi.
Qed.

(** [rule_hi] with the message in capitals and with a comma inside. *)
Lemma insensitive_rule_ignores_case_and_chat_punctuation_at_hi :
  matches RegExp_rejecting false (toUpperCase "hi") rule_hi
    = matches RegExp_rejecting false "hi" rule_hi /\
  matches RegExp_rejecting false ("h" +:+ String "," "i") rule_hi
    = matches RegExp_rejecting false ("h" +:+ "i") rule_hi.
Proof.
  destruct (insensitive_rule_ignores_case_and_chat_punctuation
              RegExp_rejecting false rule_hi) as (Hcase & Hpunct & _).
  - discriminate.
  - split.
    + apply Hcase. apply toLowerCase_toUpperCase.
    + apply Hpunct. reflexivity.
Defined.

(* ===================================================================== *)
(** * Delivery *)
(* ===================================================================== *)

Lemma deliver_emote_one (client : client) (tok : string) :
  exists e : effect, deliver_emote client tok = [e] /\ is_emote_effect e = true /\
                     is_ChannelSend e = false.
Proof.
  unfold deliver_emote. destruct (startsWith tok ":" && endsWith tok ":").
  - destruct (find _ _); eexists; split; try reflexivity; split; reflexivity.
  - eexists. split; [reflexivity|]. split; reflexivity.
Qed.

Lemma emotes_effects (client : client) (toks : list string) :
  length (flat_map (deliver_emote client) toks) = length toks /\
  List.filter is_ChannelSend (flat_map (deliver_emote client) toks) = [] /\
  Forall (fun e => is_emote_effect e = true) (flat_map (deliver_emote client) toks).
Proof.
  induction toks as [|tok toks (IH1 & IH2 & IH3)]; [repeat split; constructor|].
  destruct (deliver_emote_one client tok) as (e & He & Hk & Hs).
  cbn [flat_map]. rewrite He. cbn [app length List.filter]. rewrite Hs, IH1, IH2.
  repeat split. constructor; assumption.
Qed.

Lemma split_length (sep : ascii) (s : string) :
  length (split sep s) = S (count_char sep s).
Proof.
  induction s as [|c s IH]; [reflexivity|]. cbn [split count_char].
  destruct (Ascii.eqb c sep).
  - cbn [length]. rewrite IH. reflexivity.
  - destruct (split sep s) as [|h t]; [discriminate IH|]. exact IH.
Qed.

(** X2. A delivered rule sends its text reply exactly once when its
    response is non-empty, and never otherwise, whatever its emote field
    holds and whether or not the emotes resolve.  The reply is the response
    itself in a direct message or when [do_mention] is unset, and the
    response after a mention of the author otherwise. *)
Theorem reply_is_sent_exactly_once (client : client) (message : message) (r : reaction) :
  List.filter is_ChannelSend (_deliverReaction client message r) =
  match response r with
  | Some resp =>
      if String.eqb resp "" then []
      else if String.eqb (channel_type message) "dm" then [ChannelSend resp]
      else if do_mention r =? 0 then [ChannelSend resp]
      else [ChannelSend ("<@" +:+ author_id message +:+ "> " +:+ resp)]
  | None => []
  end.
Proof.
  unfold _deliverReaction. rewrite List.filter_app.
  assert (List.filter is_ChannelSend
            (if truthyS (emote r)
             then flat_map (deliver_emote client) (split " " (default "" (emote r)))
             else []) = []) as ->.
  { destruct (truthyS (emote r)); [apply emotes_effects | reflexivity]. }
  cbn [app]. destruct (response r) as [resp|]; [|reflexivity].
  cbn [truthyS default]. unfold truthyZ.
  destruct (String.eqb resp ""); [reflexivity|]. cbn [negb].
  destruct (String.eqb (channel_type message) "dm"); cbn [negb andb];
    [destruct (channel_send_throws message); reflexivity|].
  destruct (do_mention r =? 0); cbn [negb];
    destruct (channel_send_throws message); reflexivity.
Qed.

(** X3. The emote field is handled token by token.  A rule with no
    response produces one effect per space-separated token of its emote
    (one more than the number of spaces), each a reaction or a warning.
    For every rule, a reaction is only ever sent for a token of the emote
    field: with the token itself when it is not wrapped in colons, and
    with the id of a custom emoji of the client whose name is the token
    without its colons when it is. *)
Theorem emote_tokens_become_reactions (client : client) (message : message)
    (r : reaction) :
  (response r = None \/ response r = Some "" ->
   forall e : string, emote r = Some e -> e <> "" ->
     length (_deliverReaction client message r) = S (count_char " " e) /\
     Forall (fun x => is_emote_effect x = true) (_deliverReaction client message r)) /\
  (forall target : string,
     React target ∈ _deliverReaction client message r ->
     exists e tok : string,
       emote r = Some e /\ tok ∈ split " " e /\
       if startsWith tok ":" && endsWith tok ":"
       then (substr 1 (Z.of_nat (String.length tok) - 2) tok, target) ∈ emojis client
       else target = tok).
Proof.
  split.
  - intros Hresp e He Hne. unfold _deliverReaction.
    assert (truthyS (response r) = false) as -> by (apply truthyS_false, Hresp).
    assert (truthyS (emote r) = true) as -> by (apply truthyS_true; eauto).
    rewrite He, app_nil_r. change (default "" (Some e)) with e.
    destruct (emotes_effects client (split " " e)) as (Hlen & _ & Hall).
    rewrite Hlen, split_length. auto.
  - intros target Hin. unfold _deliverReaction in Hin.
    apply elem_of_app in Hin as [Hin | Hin].
    + destruct (truthyS (emote r)) eqn:Et; [|apply elem_of_nil in Hin as []].
      apply truthyS_true in Et as (e & He & _). rewrite He in Hin.
      change (default "" (Some e)) with e in Hin.
      apply list_elem_of_In, in_flat_map in Hin as (tok & Htok & Hin).
      exists e, tok. split; [exact He|]. split; [apply list_elem_of_In, Htok|].
      unfold deliver_emote in Hin.
      destruct (startsWith tok ":" && endsWith tok ":").
      * destruct (find _ _) as [[name i]|] eqn:Ef.
        -- destruct Hin as [[= <-] | []]. apply find_some in Ef as [Hmem Hname].
           cbn [fst snd] in *. apply String.eqb_eq in Hname as <-.
           apply list_elem_of_In, Hmem.
        -- destruct Hin as [[=] | []].
      * destruct Hin as [[= <-] | []]. reflexivity.
    + destruct (truthyS (response r)); [|apply elem_of_nil in Hin as []].
      cbv zeta in Hin. repeat (apply elem_of_cons in Hin as [Hin | Hin]; [discriminate Hin|]).
      destruct (channel_send_throws message);
        repeat (apply elem_of_cons in Hin as [Hin | Hin]; [discriminate Hin|]);
        apply elem_of_nil in Hin as [].
Qed.

(* ===================================================================== *)
(** * The filter as a whole *)
(* ===================================================================== *)

Section FilterFacts.

Variable RegExp_gm : string -> option (string -> bool).

Lemma Array_filter_None {A : Type} (f : A -> option bool) (l : list A) :
  Array_filter f l = None <-> exists x, x ∈ l /\ f x = None.
Proof.
  induction l as [|y l IH]; cbn [Array_filter].
  - split; [discriminate | intros (x & []%elem_of_nil & _)].
  - destruct (f y) as [b|] eqn:Ey.
    + destruct (Array_filter f l) as [r|].
      * split; [discriminate|]. intros (x & [-> | Hin]%elem_of_cons & Hx); [congruence|].
        apply proj2 in IH. discriminate IH. eauto.
      * split; [intros _ | reflexivity]. destruct (proj1 IH eq_refl) as (x & Hin & Hx).
        exists x. split; [apply elem_of_cons; auto | exact Hx].
    + split; [intros _ | reflexivity]. exists y. split; [apply elem_of_cons; auto | exact Ey].
Qed.

Lemma Array_filter_fmap {A : Type} (g : A -> option bool) (f : A -> A) (l : list A) :
  (forall x, g (f x) = g x) ->
  Array_filter g (f <$> l) = (fun m : list A => f <$> m) <$> Array_filter g l.
Proof.
  intros H. induction l as [|y l IH]; [reflexivity|].
  rewrite fmap_cons. cbn [Array_filter]. rewrite H, IH.
  destruct (g y) as [[]|]; [| |reflexivity]; destruct (Array_filter g l); reflexivity.
Qed.

Lemma type_is_true (t : option string) (label : string) :
  type_is t label = true <-> t = Some label.
Proof.
  destruct t as [s|]; cbn [type_is]; [|split; discriminate].
  rewrite String.eqb_eq. split; congruence.
Qed.

(** The callback throws exactly on a keyword rule that passes both gates
    and whose pattern the engine rejects. *)
Lemma matches_throws (dm : bool) (text : string) (r : reaction) :
  matches RegExp_gm dm text r = None <->
  exists t : string,
    trigger r = Some t /\ t <> "" /\ mention_ok dm r /\
    type r = Some TYPE_KEYWORD /\
    RegExp_gm ("\b" +:+ triggerNormal_of r t +:+ "\b") = None.
Proof.
  split.
  - unfold matches. destruct (truthyS (trigger r)) eqn:Et; [|discriminate].
    apply truthyS_true in Et as (t & Ht & Hne). cbn [negb].
    destruct (truthyZ (must_mention r) && negb dm) eqn:Eg; [discriminate|].
    rewrite Ht. change (default "" (Some t)) with t.
    destruct (type_is (type r) TYPE_KEYWORD) eqn:Ek.
    + destruct (RegExp_gm _) eqn:Ere; [discriminate|]. intros _.
      exists t. repeat split; try assumption.
      * unfold mention_ok. apply andb_false_iff in Eg as [Eg | Eg].
        -- left. unfold truthyZ in Eg. apply negb_false_iff, Z.eqb_eq in Eg. exact Eg.
        -- right. apply negb_false_iff in Eg. exact Eg.
      * apply type_is_true, Ek.
    + destruct (type_is (type r) TYPE_MESSAGE); discriminate.
  - intros (t & Ht & Hne & Hm & Hk & Hre).
    rewrite (matches_gates_open RegExp_gm dm text r t Ht Hne Hm).
    apply type_is_true in Hk. rewrite Hk, Hre. reflexivity.
Qed.

(** X4. The handler throws, and then delivers nothing for any rule,
    exactly when the message passes the bot, system and empty-text gates
    and the store holds a keyword rule with a non-empty trigger that
    passes its mention gate and whose pattern (the trigger between two
    word-boundary marks) the regular-expression engine rejects. *)
Theorem one_rejected_pattern_silences_all_rules (client : client) (message : message)
    (_data : store) :
  _handleDiscordMessage RegExp_gm client message _data = Threw <->
  author_bot message = false /\ system message = false /\
  trim (cleanContent message) <> "" /\
  exists (r : reaction) (t : string),
    r ∈ Object_values _data /\ trigger r = Some t /\ t <> "" /\
    mention_ok (String.eqb (channel_type message) "dm" || isMentioned message) r /\
    type r = Some TYPE_KEYWORD /\
    RegExp_gm ("\b" +:+ triggerNormal_of r t +:+ "\b") = None.
Proof.
  unfold _handleDiscordMessage, matchingReactions.
  destruct (author_bot message); [split; [discriminate | intros [[=] _]]|].
  destruct (system message); [split; [discriminate | intros (_ & [=] & _)]|].
  cbn [orb].
  destruct (trim (cleanContent message)) as [|c s] eqn:Etrim;
    [split; [discriminate | intros (_ & _ & H & _); contradiction]|].
  cbn [String.length Nat.eqb].
  destruct (Array_filter _ _) as [matching|] eqn:Ef.
  - split; [discriminate|]. intros (_ & _ & _ & r & t & Hin & H).
    assert (Array_filter
              (matches RegExp_gm (String.eqb (channel_type message) "dm" || isMentioned message)
                 (String c s)) (Object_values _data) = None) as E.
    { apply Array_filter_None. exists r. split; [exact Hin|].
      apply matches_throws. exists t. exact H. }
    congruence.
  - split; [|reflexivity]. intros _. repeat split; try discriminate.
    apply Array_filter_None in Ef as (r & Hin & Hr).
    apply matches_throws in Hr as (t & H). exists r, t. split; [exact Hin | exact H].
Qed.

Lemma Object_values_fmap (f : reaction -> reaction) (_data : store) :
  Object_values (f <$> _data) = f <$> Object_values _data.
Proof.
  unfold Object_values. rewrite map_to_list_fmap, <- !list_fmap_compose.
  apply list_fmap_ext. intros _ [k r] _. reflexivity.
Qed.

(** X5. For a direct message, and for a message that mentions the bot,
    the [must_mention] flags are void: the handler does what it would do
    if every rule of the store had the flag cleared. *)
Theorem mention_flags_are_void_when_mentioned (client : client) (message : message)
    (_data : store) :
  channel_type message = "dm" \/ isMentioned message = true ->
  _handleDiscordMessage RegExp_gm client message _data =
  _handleDiscordMessage RegExp_gm client message (with_must_mention 0 <$> _data).
Proof.
  intros H.
  assert (String.eqb (channel_type message) "dm" || isMentioned message = true) as Hdm.
  { destruct H as [-> | ->]; [reflexivity | apply orb_true_r]. }
  unfold _handleDiscordMessage, matchingReactions. rewrite Hdm, Object_values_fmap.
  destruct (author_bot message || system message); [reflexivity|].
  destruct (String.length (trim (cleanContent message)) =? 0)%nat; [reflexivity|].
  rewrite Array_filter_fmap.
  - destruct (Array_filter _ _) as [matching|]; [|reflexivity]. cbn [fmap option_fmap option_map].
    f_equal. induction matching as [|r matching IH]; [reflexivity|].
    rewrite fmap_cons. cbn [flat_map]. rewrite <- IH. reflexivity.
  - intros r. unfold matches, chatNormal_of, triggerNormal_of.
    cbn [with_must_mention trigger must_mention insensitive type].
    rewrite !andb_false_r. reflexivity.
Qed.

End FilterFacts.

(* ===================================================================== *)
(** * The store under sequences of requests *)
(* ===================================================================== *)

Section SequenceFacts.

Implicit Types (db : Database) (_data : store) (k : PropKey) (r : reaction).

(** A fetch lists the entries of the store, one per key. *)
Lemma Object_values_elem _data r :
  r ∈ Object_values _data <-> exists k, _data !! k = Some r.
Proof.
  unfold Object_values. rewrite list_elem_of_fmap. split.
  - intros ([k r'] & -> & Hin). exists k. apply elem_of_map_to_list in Hin. exact Hin.
  - intros [k Hk]. exists (k, r). split; [reflexivity|]. apply elem_of_map_to_list. exact Hk.
Qed.

Lemma Object_values_length _data : length (Object_values _data) = size _data.
Proof. unfold Object_values. rewrite length_fmap. apply length_map_to_list. Qed.

(** X6. After a write that the persistent store accepted, a fetch
    broadcasts a list that holds the written rule: the fields of the
    request as [written_as] spells them out, with the id of the request
    or, when it gave none, the record id.  Whatever else the list holds
    was in the store before.  For requests and record ids whose numbers
    are in the safe range. *)
Theorem written_rule_is_listed db (ws : socket) (data : write_data) _data :
  payload_in_safe_range data ->
  in_safe_range (insertOrUpdate db "reactions" (upsertData_of data)) ->
  insertOrUpdate db "reactions" (upsertData_of data) <> VBool false ->
  exists (stored : reaction) (rows : list reaction),
    _handleApiReactionsFetch ws (_handleApiWriteReaction db data _data).1
      = [WsSend ws API_OP_REACTIONS_FETCH rows] /\
    stored ∈ rows /\
    written_as data (insertOrUpdate db "reactions" (upsertData_of data)) stored /\
    (forall r, r ∈ rows -> r = stored \/ exists k, _data !! k = Some r).
Proof.
  intros _ _ Hok.
  destruct (write_stores_the_request db data _data Hok) as (stored & -> & Hw).
  cbn [fst]. unfold _handleApiReactionsFetch. exists stored. eexists.
  split; [reflexivity|]. split; [|split; [exact Hw|]].
  - apply Object_values_elem. eexists. apply lookup_insert_eq.
  - intros r [k Hk]%Object_values_elem.
    destruct (decide (key_of_number
                        (parseInt (insertOrUpdate db "reactions" (upsertData_of data))) = k))
      as [<- | Hne].
    + rewrite lookup_insert_eq in Hk. injection Hk as <-. left. reflexivity.
    + rewrite lookup_insert_ne in Hk by exact Hne. right. eauto.
Qed.

(** X7. Insert, then delete: when a write is stored under a positive
    record id that the store did not hold, a delete request for that id
    which the persistent store confirms gives back the store as it was
    before the write.  For a record id in the safe range of numbers. *)
Theorem delete_undoes_insert db db' (ws : socket) (data : write_data) _data (n : Z) :
  parseInt (insertOrUpdate db "reactions" (upsertData_of data)) = Some n ->
  0 < n <= MAX_SAFE_INTEGER ->
  _data !! KInt n = None ->
  deleteIfExists db' "reactions" n = true ->
  (_handleApiReactionDelete db' ws (VNum n) (_handleApiWriteReaction db data _data).1).1
  = _data.
Proof.
  intros Hn [Hpos _] Hfresh Hdel.
  destruct (write_cases db data _data) as [[Hfail _] | [_ ->]].
  { cbv zeta in Hfail. rewrite Hfail in Hn. discriminate. }
  cbn [fst]. rewrite Hn. cbn [key_of_number].
  destruct (delete_cases db' ws (VNum n)
              (<[KInt n := set_id (match id (upsertData_of data) with
                                   | Some i => Some i
                                   | None => parseInt_or_null
                                               (insertOrUpdate db "reactions" (upsertData_of data))
                                   end) (upsertData_of data)]> _data))
    as [(i & [= <-] & _ & ->) | [Hnot _]].
  - cbv zeta. cbn [fst]. rewrite Hdel. apply delete_insert_id, Hfresh.
  - specialize (Hnot n eq_refl). lia.
Qed.



(** X9. The acknowledgement of a confirmed delete lists the rules that
    remain: a rule is in the broadcast exactly when the store held it
    under another key than the deleted id's, and the list has one entry
    per remaining key.  For a request whose id is in the safe range of
    numbers. *)
Theorem delete_broadcast_lists_what_remains db (ws : socket) (v : value) _data (i : Z) :
  parseInt v = Some i -> 0 < i <= MAX_SAFE_INTEGER ->
  deleteIfExists db "reactions" i = true ->
  exists rows : list reaction,
    (_handleApiReactionDelete db ws v _data).2 = [WsSend ws API_OP_REACTIONS_FETCH rows] /\
    (forall r, r ∈ rows <-> exists k, k <> KInt i /\ _data !! k = Some r) /\
    length rows = size (delete (KInt i) _data).
Proof.
  intros Hi [Hpos _] Hdel.
  destruct (delete_cases db ws v _data) as [(j & Hj & _ & ->) | [Hnot _]].
  - assert (j = i) as -> by congruence. cbv zeta. cbn [snd]. rewrite Hdel.
    eexists. split; [reflexivity|]. split; [|apply Object_values_length].
    intros r. rewrite Object_values_elem. split.
    + intros [k Hk]. apply lookup_delete_Some in Hk as [Hne Hk]. exists k. auto.
    + intros (k & Hne & Hk). exists k. apply lookup_delete_Some. auto.
  - specialize (Hnot i Hi). lia.
Qed.

Lemma load_size (rows : list reaction) _data :
  (size (foldl (fun d row => <[key_of_id (id row) := row]> d) _data rows)
   <= size _data + length rows)%nat.
Proof.
  revert _data. induction rows as [|r0 rows IH]; intros _data; [cbn; lia|].
  cbn [foldl length]. etransitivity; [apply IH|].
  rewrite map_size_insert. destruct (_data !! _); cbn; lia.
Qed.

Lemma load_size_NoDup (rows : list reaction) _data :
  NoDup ((key_of_id ∘ id) <$> rows) ->
  (forall r, r ∈ rows -> _data !! key_of_id (id r) = None) ->
  size (foldl (fun d row => <[key_of_id (id row) := row]> d) _data rows)
  = (size _data + length rows)%nat.
Proof.
  revert _data. induction rows as [|r0 rows IH]; intros _data Hnd Hfresh; [cbn; lia|].
  rewrite fmap_cons in Hnd. apply NoDup_cons in Hnd as [Hr0 Hnd].
  cbn [foldl length]. rewrite IH.
  - rewrite map_size_insert_None; [lia|]. apply Hfresh, elem_of_cons. auto.
  - exact Hnd.
  - intros r Hr. rewrite lookup_insert_ne.
    + apply Hfresh, elem_of_cons. auto.
    + intros E. apply Hr0. rewrite list_elem_of_fmap. exists r. split; [|exact Hr].
      cbn. congruence.
Qed.

(** X10. The number that a successful reload logs is the number of rows
    read.  The store then holds at most that many rules, and exactly that
    many, as a later fetch lists them, when the ids of the rows are
    pairwise distinct. *)
Theorem reload_count db _data (rows : list reaction) :
  prepare_all db "SELECT * FROM reactions;" = Some rows ->
  (reloadAll db _data).2 = [Log LvlD [VNum (Z.of_nat (length rows))]] /\
  (size (reloadAll db _data).1.1 <= length rows)%nat /\
  (NoDup ((key_of_id ∘ id) <$> rows) ->
   length (Object_values (reloadAll db _data).1.1) = length rows).
Proof.
  intros Hrows. unfold reloadAll. rewrite Hrows. cbn [fst snd].
  split; [reflexivity|]. split.
  - etransitivity; [apply load_size|]. rewrite map_size_empty. lia.
  - intros Hnd. rewrite Object_values_length, load_size_NoDup.
    + rewrite map_size_empty. lia.
    + exact Hnd.
    + intros r _. apply lookup_empty.
Qed.

End SequenceFacts.

(* ===================================================================== *)
(** * Normalization of a write request *)
(* ===================================================================== *)

Lemma trimEnd_idem (s : string) : trimEnd (trimEnd s) = trimEnd s.
Proof.
  induction s as [|c s IH]; [reflexivity|]. cbn [trimEnd].
  destruct (is_space c && String.eqb (trimEnd s) "") eqn:E; [reflexivity|].
  cbn [trimEnd]. rewrite IH, E. reflexivity.
Qed.

Lemma trimStart_head (s : string) :
  trimStart s = "" \/
  exists c s', trimStart s = String c s' /\ is_space c = false.
Proof.
  induction s as [|c s IH]; [left; reflexivity|]. cbn [trimStart].
  destruct (is_space c) eqn:E; [exact IH|]. right. eauto.
Qed.

(** Trimming twice is trimming once. *)
Lemma trim_idem (s : string) : trim (trim s) = trim s.
Proof.
  unfold trim. destruct (trimStart_head s) as [-> | (c & s' & -> & Hc)]; [reflexivity|].
  cbn [trimEnd]. rewrite Hc. cbn [andb trimStart]. rewrite Hc.
  cbn [trimEnd]. rewrite Hc, trimEnd_idem. reflexivity.
Qed.

Lemma flag01_of_flag (z : Z) : z = 0 \/ z = 1 -> flag01 (VNum z) = z.
Proof. intros [-> | ->]; reflexivity. Qed.

Lemma or_null_id (o : option string) : o <> Some "" -> or_null o = o.
Proof.
  intros H. unfold or_null. destruct o as [s|]; [|reflexivity]. cbn [truthyS].
  destruct (String.eqb_spec s ""); [congruence | reflexivity].
Qed.

Lemma normalized_payload_round_trip (r : reaction) :
  normalized r -> (forall e, emote r = Some e -> trim e = e) ->
  upsertData_of (payload_of_row r) = r.
Proof.
  intros (H1 & H2 & H3 & H4 & H5 & H6 & H7 & H8) Htrim.
  destruct r as [i ty tr mm ins resp em dm].
  cbn [id type trigger must_mention insensitive response emote do_mention] in *.
  unfold upsertData_of, payload_of_row.
  cbn [d_id d_type d_trigger d_must_mention d_insensitive d_response d_emote d_do_mention
       id type trigger must_mention insensitive response emote do_mention].
  rewrite !flag01_of_flag by assumption.
  rewrite (or_null_id ty), (or_null_id tr), (or_null_id resp), (or_null_id em) by assumption.
  f_equal.
  - destruct i as [z|]; [|reflexivity]. unfold parseInt_or_null. cbn.
    destruct (Z.eqb_spec z 0); [congruence | reflexivity].
  - destruct em as [e|]; [|reflexivity]. change (default "" (Some e)) with e.
    rewrite (Htrim e eq_refl). apply or_null_id, H7.
Qed.

(** X11. Normalization is idempotent: a rule as the write handler stores
    it (the normalized request, under any id but 0), read from a fetch and
    sent back unchanged as a write request, normalizes to itself.  For a
    request whose numbers, and an id that, are in the safe range. *)
Theorem stored_rule_written_back_is_unchanged (data : write_data) (i : option Z) :
  payload_in_safe_range data ->
  (forall z, i = Some z -> Z.abs z <= MAX_SAFE_INTEGER) ->
  i <> Some 0 ->
  upsertData_of (payload_of_row (set_id i (upsertData_of data)))
  = set_id i (upsertData_of data).
Proof.
  intros _ _ Hi. apply normalized_payload_round_trip.
  - destruct (upsertData_of_normalized data) as (_ & H2 & H3 & H4 & H5 & H6 & H7 & H8).
    unfold normalized, set_id; cbn in *. repeat split; assumption.
  - unfold set_id, upsertData_of; cbn. intros e He.
    unfold or_null in He. destruct (truthyS _); [|discriminate].
    injection He as <-. apply trim_idem.
Qed.

(* ===================================================================== *)
(** * Enabling and disabling *)
(* ===================================================================== *)

Lemma Object_values_empty : Object_values ∅ = [].
Proof. unfold Object_values. rewrite map_to_list_empty. reflexivity. Qed.

(** With no rule in the store every message is answered with nothing. *)
Lemma empty_store_is_silent (RegExp_gm : string -> option (string -> bool))
    (client : client) (message : message) :
  _handleDiscordMessage RegExp_gm client message ∅ = Returned [].
Proof.
  unfold _handleDiscordMessage, matchingReactions. rewrite Object_values_empty.
  destruct (author_bot message || system message); [reflexivity|].
  destruct (String.length _ =? 0)%nat; reflexivity.
Qed.

(** X12. [enable()] does not surface a failed load.  When the read of
    the persistent store throws, [enable] logs the error, keeps the rule
    set the feature had, and registers the same routes and filter as
    after a successful load.  A feature enabled right after construction
    then runs with an empty rule set: every message is answered with
    nothing and a fetch broadcasts an empty list. *)
Theorem enable_swallows_a_failed_load (connection : Database) (this : feature) :
  prepare_all connection "SELECT * FROM reactions;" = None ->
  (enable connection this).1.1
    = {| this_data := this_data this; this_dbc := Some connection |} /\
  (enable connection this).1.2 = [Log LvlE []] /\
  (forall (other : Database) (that : feature),
     (enable connection this).2 = (enable other that).2) /\
  (this = constructor ->
   this_data (enable connection this).1.1 = Some ∅ /\
   (forall RegExp_gm client message,
      _handleDiscordMessage RegExp_gm client message ∅ = Returned []) /\
   (forall ws : socket,
      _handleApiReactionsFetch ws ∅ = [WsSend ws API_OP_REACTIONS_FETCH []])).
Proof.
  intros Hfail.
  assert (forall (c : Database) (t : feature),
            (enable c t).2 =
            [RegisterApi API_OP_REACTION_WRITE H_WriteReaction;
             RegisterApi API_OP_REACTION_DELETE H_ReactionDelete;
             RegisterApi API_OP_REACTIONS_FETCH H_ReactionsFetch;
             RegisterFilter H_DiscordMessage]) as Hcalls.
  { intros c t. unfold enable. destruct (reloadAll c _) as [[loaded returned] log].
    reflexivity. }
  unfold enable in *. unfold reloadAll in *. rewrite Hfail. cbn [fst snd is_false].
  split; [reflexivity|]. split; [reflexivity|]. split.
  - intros other that. specialize (Hcalls other that). cbv zeta in Hcalls.
    rewrite Hcalls. reflexivity.
  - intros ->. split; [reflexivity|]. split.
    + intros RegExp_gm client message. apply empty_store_is_silent.
    + intros ws. unfold _handleApiReactionsFetch. rewrite Object_values_empty. reflexivity.
Qed.

(** X13. [disable()] takes back what [enable()] registered: it
    unregisters the same routes with the same handlers and the same
    filter, in the same order, whatever the store answered at [enable],
    and leaves the feature with neither rule set nor connection. *)
Theorem disable_takes_back_what_enable_registered (connection : Database)
    (this that : feature) :
  (disable that).2 = undo_call <$> (enable connection this).2 /\
  this_data (disable that).1 = None /\
  this_dbc (disable that).1 = None.
Proof.
  unfold enable. destruct (reloadAll connection _) as [[loaded returned] log].
  repeat split.
Qed.

(* ===================================================================== *)
(** * The live-stream card: size placeholders *)
(* ===================================================================== *)

Lemma no_brace_app (a b : string) :
  LiveEmbed.no_brace (a +:+ b) = LiveEmbed.no_brace a && LiveEmbed.no_brace b.
Proof.
  induction a as [|c a IH]; [reflexivity|].
  rewrite append_cons. cbn [LiveEmbed.no_brace]. rewrite IH. apply andb_assoc.
Qed.

(** A pattern that opens with a brace is not found inside a prefix that
    holds none. *)
Lemma replace_after_prefix (p rep pre s : string) :
  LiveEmbed.no_brace pre = true ->
  LiveEmbed.replace (String "{" p) rep (pre +:+ s)
  = pre +:+ LiveEmbed.replace (String "{" p) rep s.
Proof.
  intros H. induction pre as [|c pre IH]; [reflexivity|].
  cbn [LiveEmbed.no_brace] in H. apply andb_prop in H as [Hc Hpre].
  rewrite !append_cons. cbn [LiveEmbed.replace startsWith].
  rewrite Ascii.eqb_sym. apply negb_true_iff in Hc. rewrite Hc. cbn [andb].
  rewrite IH by exact Hpre. reflexivity.
Qed.

Lemma drop_chars_app (a b : string) :
  LiveEmbed.drop_chars (String.length a) (a +:+ b) = b.
Proof. induction a as [|c a IH]; [reflexivity | exact IH]. Qed.

(** A string that opens with the pattern: the pattern is replaced there. *)
Lemma replace_at_head (pat rep rest : string) :
  LiveEmbed.replace pat rep (pat +:+ rest) = rep +:+ rest.
Proof.
  assert (startsWith (pat +:+ rest) pat = true) as H by (apply startsWith_spec; eauto).
  destruct (pat +:+ rest) as [|c s] eqn:E; cbn [LiveEmbed.replace]; rewrite H, <- E;
    rewrite drop_chars_app; reflexivity.
Qed.

Lemma replace_sizes (w h pre suf : string) :
  LiveEmbed.no_brace pre = true -> LiveEmbed.no_brace w = true ->
  LiveEmbed.replace "{height}" h
    (LiveEmbed.replace "{width}" w (pre +:+ "{width}x{height}" +:+ suf))
  = pre +:+ w +:+ "x" +:+ h +:+ suf.
Proof.
  intros Hpre Hw.
  rewrite (replace_after_prefix "width}" w pre _ Hpre).
  change ("{width}x{height}" +:+ suf) with ("{width}" +:+ ("x" +:+ ("{height}" +:+ suf))).
  rewrite replace_at_head.
  assert (pre +:+ (w +:+ ("x" +:+ ("{height}" +:+ suf)))
          = (pre +:+ (w +:+ "x")) +:+ ("{height}" +:+ suf)) as ->
    by (rewrite !append_assoc; reflexivity).
  rewrite (replace_after_prefix "height}" h (pre +:+ (w +:+ "x"))).
  - rewrite replace_at_head, !append_assoc. reflexivity.
  - rewrite !no_brace_app, Hpre, Hw. reflexivity.
Qed.

(** X14. The card of a live stream sets exactly one image, whatever the
    stream data: the thumbnail address with the first [{width}] replaced
    by 1280 and then the first [{height}] by 720, followed by [?t=] and
    the time stamp; for an address of the form [pre{width}x{height}suf]
    with no brace in [pre] that is [pre1280x720suf?t=] and the stamp.  The
    card of a stream that is not live sets no image. *)
Theorem live_card_image (twitch_use_boxart : bool) (thumbnailBuster uptime : string)
    (sd : LiveEmbed.streamData) :
  let images :=
    List.filter LiveEmbed.is_setImage
      (LiveEmbed.createForStream twitch_use_boxart thumbnailBuster uptime sd) in
  (LiveEmbed.type sd <> Some "live" -> images = []) /\
  (LiveEmbed.type sd = Some "live" ->
   images =
     [LiveEmbed.setImage
        (LiveEmbed.replace "{height}" "720"
           (LiveEmbed.replace "{width}" "1280" (LiveEmbed.thumbnail_url sd))
         +:+ "?t=" +:+ thumbnailBuster)] /\
   forall pre suf : string,
     LiveEmbed.no_brace pre = true ->
     LiveEmbed.thumbnail_url sd = pre +:+ "{width}x{height}" +:+ suf ->
     images =
       [LiveEmbed.setImage (pre +:+ "1280x720" +:+ suf +:+ "?t=" +:+ thumbnailBuster)]).
Proof.
  cbv zeta. unfold LiveEmbed.createForStream. rewrite !List.filter_app.
  assert (List.filter LiveEmbed.is_setImage
            match LiveEmbed.game sd with
            | Some g => [LiveEmbed.addField "Jeu" (LiveEmbed.name g) false]
            | None => []
            end = []) as ->.
  { destruct (LiveEmbed.game sd); reflexivity. }
  split.
  - intros Hoff.
    assert (type_is (LiveEmbed.type sd) "live" = false) as ->; [|reflexivity].
    destruct (type_is (LiveEmbed.type sd) "live") eqn:E; [|reflexivity].
    apply type_is_true in E. contradiction.
  - intros Hlive. rewrite Hlive.
    change (type_is (Some "live") "live") with true.
    cbn [List.filter LiveEmbed.is_setImage app]. split; [reflexivity|].
    intros pre suf Hpre Hurl. do 2 f_equal.
    rewrite Hurl, replace_sizes by (exact Hpre || reflexivity).
    rewrite !append_assoc. reflexivity.
Qed.

(** X15. Every card sets exactly one thumbnail, whatever the stream
    data: the profile image of the streamer, unless the configuration
    allows box art and the stream has a game with a non-empty box art
    address, in which case it is that address with the first [{width}]
    replaced by 288 and then the first [{height}] by 384; for an address
    of the form [pre{width}x{height}suf] with no brace in [pre] that is
    [pre288x384suf]. *)
Theorem card_thumbnail (twitch_use_boxart : bool) (thumbnailBuster uptime : string)
    (sd : LiveEmbed.streamData) :
  let thumbnails :=
    List.filter LiveEmbed.is_setThumbnail
      (LiveEmbed.createForStream twitch_use_boxart thumbnailBuster uptime sd) in
  thumbnails =
    [LiveEmbed.setThumbnail
       match LiveEmbed.game sd with
       | Some g =>
           match LiveEmbed.box_art_url g with
           | Some art =>
               if twitch_use_boxart && negb (String.eqb art "")
               then LiveEmbed.replace "{height}" "384" (LiveEmbed.replace "{width}" "288" art)
               else LiveEmbed.profile_image_url sd
           | None => LiveEmbed.profile_image_url sd
           end
       | None => LiveEmbed.profile_image_url sd
       end] /\
  (forall (g : LiveEmbed.game_data) (pre suf : string),
     LiveEmbed.no_brace pre = true ->
     LiveEmbed.game sd = Some g ->
     LiveEmbed.box_art_url g = Some (pre +:+ "{width}x{height}" +:+ suf) ->
     thumbnails =
       [LiveEmbed.setThumbnail
          (if twitch_use_boxart then pre +:+ "288x384" +:+ suf
           else LiveEmbed.profile_image_url sd)]).
Proof.
  cbv zeta.
  assert (List.filter LiveEmbed.is_setThumbnail
            (LiveEmbed.createForStream twitch_use_boxart thumbnailBuster uptime sd) =
          [LiveEmbed.setThumbnail
             match LiveEmbed.game sd with
             | Some g =>
                 match LiveEmbed.box_art_url g with
                 | Some art =>
                     if twitch_use_boxart && negb (String.eqb art "")
                     then LiveEmbed.replace "{height}" "384"
                            (LiveEmbed.replace "{width}" "288" art)
                     else LiveEmbed.profile_image_url sd
                 | None => LiveEmbed.profile_image_url sd
                 end
             | None => LiveEmbed.profile_image_url sd
             end]) as Hmain.
  { unfold LiveEmbed.createForStream. rewrite !List.filter_app.
    assert (forall l, List.filter LiveEmbed.is_setThumbnail
                        match LiveEmbed.game sd with
                        | Some g => [LiveEmbed.addField "Jeu" (LiveEmbed.name g) false]
                        | None => []
                        end ++ l = l) as Hgame.
    { intros l. destruct (LiveEmbed.game sd); reflexivity. }
    destruct (type_is (LiveEmbed.type sd) "live");
      cbn [List.filter LiveEmbed.is_setThumbnail app]; rewrite Hgame;
      cbn [List.filter LiveEmbed.is_setThumbnail app]; f_equal; f_equal;
      (destruct (LiveEmbed.game sd) as [g|]; [|reflexivity]);
      (destruct (LiveEmbed.box_art_url g) as [art|];
         [|cbn [truthyS]; rewrite andb_false_r; reflexivity]);
      cbn [truthyS]; destruct (twitch_use_boxart && negb (String.eqb art ""));
      reflexivity. }
  split; [exact Hmain|].
  intros g pre suf Hpre Hgame Hart. rewrite Hmain, Hgame, Hart.
  assert (String.eqb (pre +:+ "{width}x{height}" +:+ suf) "" = false) as ->.
  { apply String.eqb_neq. destruct pre; discriminate. }
  rewrite replace_sizes by (exact Hpre || reflexivity).
  rewrite andb_true_r. destruct twitch_use_boxart; rewrite ?append_assoc; reflexivity.
Qed.

(* ===================================================================== *)
(** * The further theorems at concrete inputs *)
(* ===================================================================== *)


(** [rule_cat]: two emote tokens, no response. *)
Lemma emote_tokens_become_reactions_at_rule_cat :
  length (_deliverReaction sample_client (message_of false false "cat") rule_cat) = 2%nat.
Proof.
  destruct (emote_tokens_become_reactions sample_client (message_of false false "cat") rule_cat)
    as [H _].
  destruct (H (or_introl eq_refl) ":tada: x" eq_refl) as [Hlen _]; [discriminate|].
  exact Hlen.
Defined.

(** The keyword rule, an engine that rejects its pattern, and the
    message [cat]. *)
Lemma one_rejected_pattern_silences_all_rules_at_sample :
  _handleDiscordMessage RegExp_rejecting sample_client (message_of false false "cat")
    (<[KInt 7 := rule_keyword]> sample_store) = Threw.
Proof.
  apply (one_rejected_pattern_silences_all_rules RegExp_rejecting).
  split; [reflexivity|]. split; [reflexivity|]. split; [discriminate|].
  exists rule_keyword, "cat". split.
  - apply Object_values_elem. exists (KInt 7). apply lookup_insert_eq.
  - split; [reflexivity|]. split; [discriminate|]. split; [left; reflexivity|].
    split; reflexivity.
Defined.

(** A direct message and the sample store, which holds [rule_mention]. *)
Lemma mention_flags_are_void_when_mentioned_at_sample :
  _handleDiscordMessage RegExp_rejecting sample_client
    (direct (message_of false false "hi")) sample_store
  = _handleDiscordMessage RegExp_rejecting sample_client
      (direct (message_of false false "hi")) (with_must_mention 0 <$> sample_store).
Proof.
  apply (mention_flags_are_void_when_mentioned RegExp_rejecting).
  left. reflexivity.
Defined.

(** The sample write, stored under the record id 8. *)
Lemma written_rule_is_listed_at_sample :
  exists (stored : reaction) (rows : list reaction),
    _handleApiReactionsFetch 0%nat
      (_handleApiWriteReaction (db_up []) sample_write sample_store).1
      = [WsSend 0%nat API_OP_REACTIONS_FETCH rows] /\
    stored ∈ rows /\ id stored = Some 8 /\ trigger stored = Some "dog" /\
    emote stored = Some ":tada:".
Proof.
  destruct (written_rule_is_listed (db_up []) 0%nat sample_write sample_store)
    as (stored & rows & Hfetch & Hin & Hw & _).
  - repeat split; safe_value.
  - safe_value.
  - discriminate.
  - exists stored, rows. split; [exact Hfetch|]. split; [exact Hin|].
    destruct Hw as (H1 & _ & H3 & _ & _ & _ & H7 & _).
    split; [exact H1|]. split; [exact H3 | exact H7].
Defined.

(** The sample write under the fresh id 8, then a delete of 8. *)
Lemma delete_undoes_insert_at_sample :
  (_handleApiReactionDelete (db_up []) 0%nat (VNum 8)
     (_handleApiWriteReaction (db_up []) sample_write sample_store).1).1
  = sample_store.
Proof.
  apply (delete_undoes_insert (db_up []) (db_up []) 0%nat sample_write sample_store 8).
  - reflexivity.
  - split; [reflexivity | discriminate].
  - reflexivity.
  - reflexivity.
Defined.


(** A confirmed delete of the id 2 from the sample store. *)
Lemma delete_broadcast_lists_what_remains_at_sample :
  exists rows : list reaction,
    (_handleApiReactionDelete (db_up []) 0%nat (VStr "2") sample_store).2
      = [WsSend 0%nat API_OP_REACTIONS_FETCH rows] /\
    (rule_hi ∈ rows) /\ length rows = 2%nat.
Proof.
  destruct (delete_broadcast_lists_what_remains (db_up []) 0%nat (VStr "2") sample_store 2)
    as (rows & Hsend & Hin & Hlen);
    [reflexivity | split; [reflexivity | discriminate] | reflexivity |].
  exists rows. split; [exact Hsend|]. split.
  - apply Hin. exists (KInt 1). split; [discriminate | reflexivity].
  - rewrite Hlen. reflexivity.
Defined.

(** A reload of two rows of distinct ids. *)
Lemma reload_count_at_two_rows :
  (reloadAll (db_up [rule_hi; rule_mention]) sample_store).2 = [Log LvlD [VNum 2]] /\
  length (Object_values (reloadAll (db_up [rule_hi; rule_mention]) sample_store).1.1) = 2%nat.
Proof.
  destruct (reload_count (db_up [rule_hi; rule_mention]) sample_store [rule_hi; rule_mention])
    as (Hlog & _ & Hlen); [reflexivity|].
  split; [exact Hlog|]. apply Hlen.
  apply NoDup_cons. split; [|apply NoDup_singleton].
  intros H. apply list_elem_of_singleton in H. discriminate H.
Defined.

(** The sample write as stored under the id 8. *)
Lemma stored_rule_written_back_is_unchanged_at_sample :
  upsertData_of (payload_of_row (set_id (Some 8) (upsertData_of sample_write)))
  = set_id (Some 8) (upsertData_of sample_write).
Proof.
  apply (stored_rule_written_back_is_unchanged sample_write (Some 8)).
  - repeat split; safe_value.
  - intros z [= <-]. discriminate.
  - discriminate.
Defined.

(** A new feature enabled on a store that cannot be read. *)
Lemma enable_swallows_a_failed_load_at_db_down :
  this_data (enable db_down constructor).1.1 = Some ∅ /\
  (enable db_down constructor).1.2 = [Log LvlE []] /\
  (enable db_down constructor).2 = (enable (db_up [rule_hi]) constructor).2.
Proof.
  destruct (enable_swallows_a_failed_load db_down constructor) as (_ & Hlog & Hcalls & H);
    [reflexivity|].
  split; [exact (proj1 (H eq_refl))|]. split; [exact Hlog | apply Hcalls].
Defined.

(** The sample live stream. *)
Lemma live_card_image_at_sample :
  List.filter LiveEmbed.is_setImage
    (LiveEmbed.createForStream true "1700000000" "2 heures" LiveEmbed.sample_live)
  = [LiveEmbed.setImage "https://cdn/live-1280x720.jpg?t=1700000000"].
Proof.
  destruct (live_card_image true "1700000000" "2 heures" LiveEmbed.sample_live) as [_ H].
  destruct H as [_ H]; [reflexivity|].
  apply (H "https://cdn/live-" ".jpg"); reflexivity.
Defined.

(** The sample live stream, with box art allowed. *)
Lemma card_thumbnail_at_sample :
  List.filter LiveEmbed.is_setThumbnail
    (LiveEmbed.createForStream true "1700000000" "2 heures" LiveEmbed.sample_live)
  = [LiveEmbed.setThumbnail "https://cdn/chess-288x384.jpg"].
Proof.
  destruct (card_thumbnail true "1700000000" "2 heures" LiveEmbed.sample_live) as [_ H].
  apply (H {| LiveEmbed.name := "Chess";
              LiveEmbed.box_art_url := Some "https://cdn/chess-{width}x{height}.jpg" |}
           "https://cdn/chess-" ".jpg"); reflexivity.
Defined.

Example live_card_of_sample :
  LiveEmbed.createForStream false "1700000000" "2 heures" LiveEmbed.sample_live =
  [LiveEmbed.setColor "#9146ff";
   LiveEmbed.setURL "https://twitch.tv/someone";
   LiveEmbed.setThumbnail "https://cdn/profile.png";
   LiveEmbed.setTitle ":red_circle: **SomeOne est en live sur Twitch !**";
   LiveEmbed.addField "Titre" "Blitz" false;
   LiveEmbed.addField "Jeu" "Chess" false;
   LiveEmbed.addField "Statut" "En live avec 12 viewers" true;
   LiveEmbed.setImage "https://cdn/live-1280x720.jpg?t=1700000000";
   LiveEmbed.addField "Depuis" "2 heures" true].
Proof. vm_compute. reflexivity. Qed.
